(** * flomo2notion: the synchronisation engine of [flomo2notion.py]

    A shallow embedding of the one source file of the repository and the
    properties of its specification.  The file has two parts: the embedding
    (Python values, the collaborators the script calls into, the functions
    of the script, a reference destination and reference instances), then
    the theorems.  What the script prints is not part of the embedding. *)

From Stdlib Require Import Ascii.
From stdpp Require Import gmap strings list pretty.

(** ** Python values

    Memos are the dictionaries decoded from the source service's JSON.  The
    universe below is the JSON one (numbers restricted to integers). *)

#[warnings="-register-all"]
Inductive value :=
| VNone
| VBool (b : bool)
| VInt (z : Z)
| VStr (s : string)
| VList (l : list value)
| VDict (d : list (string * value)).

(** The exceptions the script can let escape.  [CallFailed] stands for
    whatever a collaborator raises (transport, authentication, API). *)
Inductive exn :=
| AttributeError
| KeyError
| TypeError
| ValueError
| OverflowError
| IndexError
| CallFailed (who : string).

Inductive result (A : Type) :=
| Ok (a : A)
| Raise (e : exn).
Arguments Ok {A} a.
Arguments Raise {A} e.

Definition rbind {A B} (r : result A) (k : A -> result B) : result B :=
  match r with
  | Ok a => k a
  | Raise e => Raise e
  end.

Notation "'try' x := r 'in' k" := (rbind r (fun x => k))
  (at level 10, x name, r at level 100, k at level 200).

(** [bool(v)]: Python truthiness. *)
Definition truthy (v : value) : bool :=
  match v with
  | VNone => false
  | VBool b => b
  | VInt z => negb (z =? 0)%Z
  | VStr s => negb (String.eqb s "")
  | VList l => match l with [] => false | _ => true end
  | VDict d => match d with [] => false | _ => true end
  end.

(** [a or b]. *)
Definition py_or (a b : value) : value := if truthy a then a else b.

(** [v == s] for a string literal [s]. *)
Definition eq_str (v : value) (s : string) : bool :=
  match v with
  | VStr t => String.eqb t s
  | _ => false
  end.

(** [v == 0]: the integer zero and [False] compare equal to [0]. *)
Definition eq_zero (v : value) : bool :=
  match v with
  | VInt z => (z =? 0)%Z
  | VBool b => negb b
  | _ => false
  end.

(** A dictionary is kept as its items; a key is looked up at its first
    binding. *)
Fixpoint dict_lookup (d : list (string * value)) (k : string) : option value :=
  match d with
  | [] => None
  | (k', v) :: d' => if String.eqb k' k then Some v else dict_lookup d' k
  end.

(** [d.get(k, default)]. *)
Definition dict_get (d : list (string * value)) (k : string) (default : value) : value :=
  match dict_lookup d k with
  | Some v => v
  | None => default
  end.

(** The receiver of [.get]: only a dictionary has the method. *)
Definition as_dict (v : value) : result (list (string * value)) :=
  match v with
  | VDict d => Ok d
  | _ => Raise AttributeError
  end.

(** [isinstance(v, dict)]. *)
Definition is_dict (v : value) : bool :=
  match v with
  | VDict _ => true
  | _ => false
  end.

(** [v[k]] for a string key [k]. *)
Definition subscript (v : value) (k : string) : result value :=
  match v with
  | VDict d =>
      match dict_lookup d k with
      | Some x => Ok x
      | None => Raise KeyError
      end
  | _ => Raise TypeError
  end.

(** [for f in v]: the elements a [for] loop visits. *)
Definition py_iter (v : value) : result (list value) :=
  match v with
  | VList l => Ok l
  | VStr s => Ok (map (fun c => VStr (String c "")) (String.list_ascii_of_string s))
  | VDict d => Ok (map (fun kv => VStr (fst kv)) d)
  | _ => Raise TypeError
  end.

Definition newline : string := String (Ascii.ascii_of_nat 10) "".

(** [sep.join(l)] on strings. *)
Fixpoint join (sep : string) (l : list string) : string :=
  match l with
  | [] => ""
  | [s] => s
  | s :: l' => s +:+ sep +:+ join sep l'
  end.

(** [str.join] raises [TypeError] on an item that is not a string. *)
Fixpoint as_strs (l : list value) : result (list string) :=
  match l with
  | [] => Ok []
  | VStr s :: l' => try ss := as_strs l' in Ok (s :: ss)
  | _ :: _ => Raise TypeError
  end.

Definition str_join (sep : string) (l : list value) : result string :=
  try ss := as_strs l in Ok (join sep ss).

(** ** Collaborators

    Everything the script imports is taken through an interface. *)

(** [markdownify.markdownify] and [html2text.html2text]. *)
Class Converters := {
  markdownify : value -> result string;
  html2text : value -> result string
}.

(** [utils.truncate_string] and [utils.is_within_n_days]. *)
Class Utils := {
  truncate_string : string -> string;
  is_within_n_days : value -> Z -> result bool
}.

(** The Python runtime: [os.getenv], [str.strip], [str.lower], [int],
    [time.strptime] at the format ["%Y-%m-%d %H:%M:%S"] ([None] for its
    [ValueError]), [time.mktime] followed by [int] ([None] for its
    [OverflowError]), and the successive draws of [random.choice(cover)]. *)
Class Runtime := {
  getenv : string -> option string;
  str_strip : string -> string;
  str_lower : string -> string;
  int_of_str : string -> option Z;
  struct_time : Type;
  strptime : string -> option struct_time;
  mktime : struct_time -> option Z;
  random_choice_cover : nat -> string
}.

(** [FlomoApi.get_memo_list(authorization, latest_updated_at)]: the page the
    source answers a cursor with.  A run sees one snapshot of the source,
    so the answer depends on the request only; a falsy answer is the empty
    page. *)
Class Flomo := {
  get_memo_list : option string -> string -> result (list value)
}.

(** The property payloads built by [notion_utils]: each helper call is kept
    as the call it is. *)
Inductive payload :=
| get_title (content : string)
| get_multi_select (names : value)
| get_select (name : value)
| get_rich_text (content : value)
| get_date (start : value)
| get_number (number : value)
| get_icon (url : string).

Definition properties := list (string * payload).

(** The destination: [NotionHelper] with its client, [Md2NotionUploader]
    and the reader [notion_utils.get_rich_text_from_result].  [D] is the
    state of the destination workspace and [R] its records (pages);
    [helper_page_id] is [notion_helper.page_id], the collection synced to,
    and [record_id r] the entry of [r] under ["id"], when there is one. *)
Class Notion (D R : Type) := {
  helper_page_id : value;
  query_all : value -> D -> result (list R);
  pages_create : list (string * value) -> payload -> payload -> properties -> D -> result R * D;
  pages_update : value -> properties -> D -> result R * D;
  clear_page_content : value -> D -> result unit * D;
  uploadSingleFileContent : string -> value -> D -> result unit * D;
  record_id : R -> option value;
  get_rich_text_from_result : R -> string -> option string
}.

(** The destination writes the script issues, in order. *)
Inductive call :=
| PagesCreate (parent : list (string * value)) (icon cover : payload) (props : properties)
| PagesUpdate (page : value) (props : properties)
| ClearPageContent (page : value)
| UploadContent (md : string) (page : value).

(** ** The state of a run

    A run threads the destination, the writes issued so far and the number
    of covers drawn; an exception stops it where it is raised. *)

Record world (D : Type) := World {
  dest : D;
  calls : list call;
  draws : nat
}.
Arguments World {D} dest calls draws.
Arguments dest {D} w.
Arguments calls {D} w.
Arguments draws {D} w.

Definition M (D A : Type) : Type := world D -> result A * world D.

Definition ret {D A} (a : A) : M D A := fun w => (Ok a, w).

Definition bind {D A B} (m : M D A) (k : A -> M D B) : M D B :=
  fun w =>
    match m w with
    | (Ok a, w') => k a w'
    | (Raise e, w') => (Raise e, w')
    end.

Notation "'run' x := m 'in' k" := (bind m (fun x => k))
  (at level 10, x name, m at level 100, k at level 200).
Notation "'run' ' pat := m 'in' k" := (bind m (fun x => match x with pat => k end))
  (at level 10, pat pattern, m at level 100, k at level 200).

Definition lift {D A} (r : result A) : M D A := fun w => (r, w).

Definition issue {D} (c : call) : M D unit :=
  fun w => (Ok tt, World (dest w) (calls w ++ [c]) (draws w)).

Definition on_dest {D A} (f : D -> result A * D) : M D A :=
  fun w => let (r, d') := f (dest w) in (r, World d' (calls w) (draws w)).

Definition read_dest {D A} (f : D -> result A) : M D A :=
  fun w => (f (dest w), w).

(** [for x in l: body(x)]. *)
Fixpoint for_each {D A} (body : A -> M D unit) (l : list A) : M D unit :=
  match l with
  | [] => ret tt
  | x :: l' => run _ := body x in for_each body l'
  end.

(** A step of a run keeps the writes issued before it. *)
Definition extends {D A} (m : M D A) : Prop :=
  forall w r w', m w = (r, w') -> calls w `prefix_of` calls w'.

(** ** The script *)

Section Script.
Context `{Converters} `{Utils} `{Runtime} `{Flomo}.

Definition _parse_bool_env (name : string) (default : bool) : bool :=
  match getenv name with
  | None => default
  | Some val =>
      bool_decide (str_lower (str_strip val) ∈ ["1"; "true"; "yes"; "y"; "on"])
  end.

Definition _parse_int_env (name : string) (default : Z) : Z :=
  match getenv name with
  | None => default
  | Some val =>
      if String.eqb (str_strip val) "" then default
      else match int_of_str val with
           | Some n => n
           | None => default
           end
  end.

(** The comprehension's test and projection on one entry of [files]. *)
Definition image_url (f : value) : option value :=
  match f with
  | VDict fd =>
      if eq_str (dict_get fd "type" VNone) "image" && truthy (dict_get fd "url" VNone)
      then Some (dict_get fd "url" VNone)
      else None
  | _ => None
  end.

Definition _safe_md_and_text (memo : value) : result (string * string) :=
  try d := as_dict memo in
  let content_html := dict_get d "content" VNone in
  if negb (truthy content_html) then
    let files := py_or (dict_get d "files" VNone) (VList []) in
    try fs := py_iter files in
    let img_urls := omap image_url fs in
    try content_md :=
      (match img_urls with
       | [] => Ok ""
       | _ => str_join newline img_urls
       end) in
    let content_text := content_md in
    Ok (content_md, content_text)
  else
    try content_md := markdownify content_html in
    try content_text := html2text content_html in
    Ok (content_md, content_text).

(** [latest_updated_at] after a non-empty page. *)
Definition latest_updated_at (new_memo_list : list value) : result string :=
  match last new_memo_list with
  | None => Raise IndexError
  | Some memo =>
      try u := subscript memo "updated_at" in
      match u with
      | VStr s =>
          match strptime s with
          | None => Raise ValueError
          | Some tm =>
              match mktime tm with
              | None => Raise OverflowError
              | Some secs => Ok (pretty secs)
              end
          end
      | _ => Raise TypeError
      end
  end.

(** The [while True] loop of [sync_to_notion]; [None] when [fuel] page
    requests did not reach the end of the loop. *)
Fixpoint fetch_loop (fuel : nat) (authorization : option string)
    (cursor : string) (memo_list : list value) : option (result (list value)) :=
  match fuel with
  | O => None
  | S fuel' =>
      match get_memo_list authorization cursor with
      | Raise e => Some (Raise e)
      | Ok [] => Some (Ok memo_list)
      | Ok new_memo_list =>
          match latest_updated_at new_memo_list with
          | Raise e => Some (Raise e)
          | Ok cursor' =>
              fetch_loop fuel' authorization cursor' (memo_list ++ new_memo_list)
          end
      end
  end.

Definition fetch_all (fuel : nat) : option (result (list value)) :=
  fetch_loop fuel (getenv "FLOMO_TOKEN") "0" [].

Section Destination.
Context {D R : Type} `{Notion D R}.

Definition random_choice : M D string :=
  fun w => (Ok (random_choice_cover (draws w)),
            World (dest w) (calls w) (S (draws w))).

(** [page["id"]] on a record returned by the client. *)
Definition record_subscript_id (page : R) : result value :=
  match record_id page with
  | Some i => Ok i
  | None => Raise KeyError
  end.

(** [notion_memo.get("id")]. *)
Definition record_get_id (notion_memo : R) : value :=
  match record_id notion_memo with
  | Some i => i
  | None => VNone
  end.

(** The client and uploader calls, each recorded when it is issued. *)
Definition client_pages_create (parent : list (string * value))
    (icon cover : payload) (props : properties) : M D R :=
  run _ := issue (PagesCreate parent icon cover props) in
  on_dest (pages_create parent icon cover props).

Definition client_pages_update (page : value) (props : properties) : M D R :=
  run _ := issue (PagesUpdate page props) in
  on_dest (pages_update page props).

Definition helper_clear_page_content (page : value) : M D unit :=
  run _ := issue (ClearPageContent page) in
  on_dest (clear_page_content page).

Definition uploader_uploadSingleFileContent (md : string) (page : value) : M D unit :=
  run _ := issue (UploadContent md page) in
  on_dest (uploadSingleFileContent md page).

Definition pin_select (d : list (string * value)) : payload :=
  get_select (VStr (if eq_zero (dict_get d "pin" (VInt 0)) then "否" else "是")).

(** The [properties] dictionary of [insert_memo], in the order written. *)
Definition insert_properties (d : list (string * value)) (content_text : string) : properties :=
  [ ("标题", get_title (truncate_string content_text));
    ("标签", get_multi_select (py_or (dict_get d "tags" VNone) (VList [])));
    ("是否置顶", pin_select d);
    ("slug", get_rich_text (dict_get d "slug" (VStr "")));
    ("创建时间", get_date (dict_get d "created_at" (VStr "")));
    ("更新时间", get_date (dict_get d "updated_at" (VStr "")));
    ("来源", get_select (py_or (dict_get d "source" VNone) (VStr "")));
    ("链接数量", get_number (dict_get d "linked_count" (VInt 0))) ].

Definition insert_icon : payload :=
  get_icon "https://www.notion.so/icons/target_red.svg".

Definition insert_parent : list (string * value) :=
  [ ("database_id", helper_page_id); ("type", VStr "database_id") ].

Definition insert_memo (memo : value) : M D unit :=
  run '(content_md, content_text) := lift (_safe_md_and_text memo) in
  run d := lift (as_dict memo) in
  let parent := insert_parent in
  let props := insert_properties d content_text in
  run random_cover := random_choice in
  run page := client_pages_create parent insert_icon (get_icon random_cover) props in
  run uploaded := lift (record_subscript_id page) in
  uploader_uploadSingleFileContent content_md uploaded.

(** The [properties] dictionary of [update_memo], in the order written. *)
Definition update_properties (d : list (string * value)) (content_text : string) : properties :=
  [ ("标题", get_title (truncate_string content_text));
    ("更新时间", get_date (dict_get d "updated_at" (VStr "")));
    ("链接数量", get_number (dict_get d "linked_count" (VInt 0)));
    ("标签", get_multi_select (py_or (dict_get d "tags" VNone) (VList [])));
    ("是否置顶", pin_select d) ].

Definition update_memo (memo : value) (page_id : value) : M D unit :=
  run '(content_md, content_text) := lift (_safe_md_and_text memo) in
  run d := lift (as_dict memo) in
  let props := update_properties d content_text in
  run page := client_pages_update page_id props in
  run cleared := lift (record_subscript_id page) in
  run _ := helper_clear_page_content cleared in
  run uploaded := lift (record_subscript_id page) in
  uploader_uploadSingleFileContent content_md uploaded.

(** Step 2 of [sync_to_notion]: the index from slug to record handle. *)
Definition build_slug_map (notion_memo_list : list R) : gmap string value :=
  foldl
    (fun slug_map notion_memo =>
       match get_rich_text_from_result notion_memo "slug" with
       | Some key =>
           if negb (String.eqb key "")
           then <[key := record_get_id notion_memo]> slug_map
           else slug_map
       | None => slug_map
       end)
    ∅ notion_memo_list.

(** The records that carry [key] as identifier. *)
Definition has_slug (key : string) (notion_memo : R) : Prop :=
  get_rich_text_from_result notion_memo "slug" = Some key.

#[export] Instance has_slug_dec key notion_memo : Decision (has_slug key notion_memo).
Proof. unfold has_slug. apply _. Defined.

(** [slug in slug_map] together with [slug_map[slug]]: the keys are
    strings, a list or a dictionary cannot be hashed, and any other value
    is hashable and equal to no key. *)
Definition slug_lookup (slug : value) (slug_map : gmap string value) : result (option value) :=
  match slug with
  | VStr s => Ok (slug_map !! s)
  | VList _ | VDict _ => Raise TypeError
  | _ => Ok None
  end.

(** The body of the [for memo in memo_list] loop. *)
Definition sync_memo (full_update : bool) (interval_day : Z)
    (slug_map : gmap string value) (memo : value) : M D unit :=
  run d := lift (as_dict memo) in
  let slug := dict_get d "slug" VNone in
  run found := lift (slug_lookup slug slug_map) in
  match found with
  | Some page_id =>
      run skip :=
        (if negb full_update
         then run within := lift (is_within_n_days (dict_get d "updated_at" (VStr "")) interval_day) in
              ret (negb within)
         else ret false) in
      if (skip : bool) then ret tt
      else update_memo memo page_id
  | None => insert_memo memo
  end.

(** Steps 2 and 3 of [sync_to_notion], on the memos fetched in step 1. *)
Definition reconcile (memo_list : list value) : M D unit :=
  run notion_memo_list := read_dest (query_all helper_page_id) in
  let slug_map := build_slug_map notion_memo_list in
  let full_update := _parse_bool_env "FULL_UPDATE" false in
  let interval_day := _parse_int_env "UPDATE_INTERVAL_DAY" 7 in
  for_each (sync_memo full_update interval_day slug_map) memo_list.

(** [sync_to_notion]; [None] when [fuel] page requests did not end the
    pagination. *)
Definition sync_to_notion (fuel : nat) (w : world D) : option (result unit * world D) :=
  match fetch_all fuel with
  | None => None
  | Some (Raise e) => Some (Raise e, w)
  | Some (Ok memo_list) => Some (reconcile memo_list w)
  end.

End Destination.
End Script.

Arguments sync_to_notion {_ _ _ _ D R _} fuel w.
Arguments reconcile {_ _ _ D R _} memo_list w.
Arguments sync_memo {_ _ _ D R _} full_update interval_day slug_map memo w.
Arguments insert_memo {_ _ _ D R _} memo w.
Arguments update_memo {_ _ D R _} memo page_id w.

(** Reading a property bag: the first binding of a name. *)
Fixpoint prop_lookup (props : properties) (name : string) : option payload :=
  match props with
  | [] => None
  | (n, v) :: props' => if String.eqb n name then Some v else prop_lookup props' name
  end.

(** The identifiers of the records created by a sequence of writes: the
    argument of [get_rich_text] under ["slug"] of every [pages.create]. *)
Definition created_slug (c : call) : option value :=
  match c with
  | PagesCreate _ _ _ props =>
      match prop_lookup props "slug" with
      | Some (get_rich_text v) => Some v
      | _ => None
      end
  | _ => None
  end.

Definition created_slugs (cs : list call) : list value := omap created_slug cs.

(** The identifier [insert_memo] writes for a memo. *)
Definition identifier (memo : value) : value :=
  match memo with
  | VDict d => dict_get d "slug" (VStr "")
  | _ => VNone
  end.

(** ** Memos a second run has nothing to do for

    A memo that carries a non-empty text slug and that the freshness test
    finds outside the window of the run. *)

Section Settled.
Context `{Utils} `{Runtime}.

Definition identified_and_stale (memo : value) : Prop :=
  exists d s,
    memo = VDict d
    /\ dict_lookup d "slug" = Some (VStr s)
    /\ s <> ""
    /\ is_within_n_days (dict_get d "updated_at" (VStr ""))
         (_parse_int_env "UPDATE_INTERVAL_DAY" 7) = Ok false.

End Settled.

(** ** The empty-content fallback as the specification words it

    The urls of the entries of [memo.files] whose type is ["image"] and
    whose url is not empty, in the order of [memo.files]. *)

Definition content_missing (d : list (string * value)) : Prop :=
  dict_lookup d "content" = None
  \/ dict_lookup d "content" = Some VNone
  \/ dict_lookup d "content" = Some (VStr "").

(** [files] is absent, [None] or a list. *)
Definition files_listed (d : list (string * value)) : Prop :=
  dict_lookup d "files" = None
  \/ dict_lookup d "files" = Some VNone
  \/ exists fs, dict_lookup d "files" = Some (VList fs).

Definition memo_files (d : list (string * value)) : list value :=
  match dict_lookup d "files" with
  | Some (VList fs) => fs
  | _ => []
  end.

(** The url of an image entry is text whenever it is not empty. *)
Definition url_is_text (f : value) : Prop :=
  forall fd u,
    f = VDict fd ->
    dict_lookup fd "type" = Some (VStr "image") ->
    dict_lookup fd "url" = Some u ->
    truthy u = true ->
    exists s, u = VStr s.

Definition qualifying_url (f : value) : option string :=
  match f with
  | VDict fd =>
      match dict_lookup fd "type", dict_lookup fd "url" with
      | Some (VStr t), Some (VStr u) =>
          if decide (t = "image" /\ u <> "") then Some u else None
      | _, _ => None
      end
  | _ => None
  end.

Definition image_urls (files : list value) : list string := omap qualifying_url files.

(** ** The pagination as the specification words it

    The cursor starts at ["0"]; after a non-empty page it becomes the
    epoch seconds of the [updated_at] of the last memo of the page; the
    loop ends at the first empty page; the result is the pages in fetch
    order. *)

Section Pagination.
Context `{Runtime} `{Flomo}.

Definition epoch_cursor (memo : value) : option string :=
  match memo with
  | VDict d =>
      match dict_lookup d "updated_at" with
      | Some (VStr s) =>
          tm ← strptime s; secs ← mktime tm; Some (pretty secs)
      | _ => None
      end
  | _ => None
  end.

Inductive page_chain (authorization : option string) : string -> list (list value) -> string -> Prop :=
| chain_nil cursor :
    page_chain authorization cursor [] cursor
| chain_cons cursor page memo cursor' pages cursor'' :
    get_memo_list authorization cursor = Ok page ->
    last page = Some memo ->
    epoch_cursor memo = Some cursor' ->
    page_chain authorization cursor' pages cursor'' ->
    page_chain authorization cursor (page :: pages) cursor''.

Definition pagination (authorization : option string) (pages : list (list value)) : Prop :=
  exists cursor, page_chain authorization "0" pages cursor
                 /\ get_memo_list authorization cursor = Ok [].

End Pagination.

(** What [time.strptime] raises on an [updated_at] it cannot parse:
    [ValueError] on text that is not in the format, [TypeError] on a value
    that is not text. *)
Definition parse_error (updated_at : value) : exn :=
  match updated_at with
  | VStr _ => ValueError
  | _ => TypeError
  end.

(** ** A reference destination *)

Module Store.

(** Modelled from the spec: the destination collection behind
    [NotionHelper], its client and [Md2NotionUploader], which are not in
    the source file.  A record has an opaque handle, a property bag and a
    document body; records are created, their properties replaced by name
    and their body replaced wholesale, and never deleted (spec, sections 3
    and 6). *)
Record page := Page {
  handle : string;
  props : properties;
  blocks : list string
}.

Definition store := list page.

(** Modelled from the spec: the handle given to a new record, one that no
    record of the store has (records are never deleted). *)
Definition fresh_handle (st : store) : string := "page-" +:+ pretty (length st).

(** Modelled from the spec: [create(parent, icon, cover, properties)] adds
    a record with these properties and no content, and returns it. *)
Definition create (parent : list (string * value)) (icon cover : payload)
    (ps : properties) (st : store) : result page * store :=
  let r := Page (fresh_handle st) ps [] in
  (Ok r, st ++ [r]).

(** Modelled from the spec: a write to the record with handle [h]; [None]
    when the store has no such record. *)
Fixpoint modify (h : string) (f : page -> page) (st : store) : option (page * store) :=
  match st with
  | [] => None
  | r :: st' =>
      if String.eqb (handle r) h then Some (f r, f r :: st')
      else match modify h f st' with
           | Some (r', st'') => Some (r', r :: st'')
           | None => None
           end
  end.

(** Modelled from the spec: a call on a record handle fails when the
    handle is not the handle of a record. *)
Definition on_page (who : string) (page : value) (f : Store.page -> Store.page)
    (st : store) : result Store.page * store :=
  match page with
  | VStr h =>
      match modify h f st with
      | Some (r, st') => (Ok r, st')
      | None => (Raise (CallFailed who), st)
      end
  | _ => (Raise (CallFailed who), st)
  end.

(** Modelled from the spec: [update(recordHandle, properties)] replaces the
    properties named in [ps] and keeps the others. *)
Definition named_in (ps : properties) (name : string) : bool :=
  existsb (String.eqb name) (map fst ps).

Definition replace_props (ps old : properties) : properties :=
  ps ++ List.filter (fun kv => negb (named_in ps (fst kv))) old.

Definition update (page : value) (ps : properties) (st : store) : result Store.page * store :=
  on_page "pages.update" page
    (fun r => Page (handle r) (replace_props ps (props r)) (blocks r)) st.

Definition discard {A} (x : result A * store) : result unit * store :=
  (match fst x with Ok _ => Ok tt | Raise e => Raise e end, snd x).

(** Modelled from the spec: [clearContent] removes every block of the
    record and [uploadMarkdown] appends the markdown to its content. *)
Definition clear (page : value) (st : store) : result unit * store :=
  discard (on_page "clear_page_content" page (fun r => Page (handle r) (props r) []) st).

Definition upload (md : string) (page : value) (st : store) : result unit * store :=
  discard (on_page "uploadSingleFileContent" page
             (fun r => Page (handle r) (props r) (blocks r ++ [md])) st).

(** Modelled from the spec: the reader of a record's text property
    ([notion_utils.get_rich_text_from_result], not in the source file): the
    text the property was written with. *)
Definition read_rich_text (r : page) (name : string) : option string :=
  match prop_lookup (props r) name with
  | Some (get_rich_text (VStr s)) => Some s
  | _ => None
  end.

#[global] Instance notion : Notion store page := {|
  helper_page_id := VStr "database";
  query_all := fun _ st => Ok st;
  pages_create := create;
  pages_update := update;
  clear_page_content := clear;
  uploadSingleFileContent := upload;
  record_id := fun r => Some (VStr (handle r));
  get_rich_text_from_result := read_rich_text
|}.

(** The store holds a record with identifier [s]. *)
Definition carries (st : store) (s : string) : Prop :=
  exists r, r ∈ st /\ read_rich_text r "slug" = Some s.

(** Every identifier of [st] is still an identifier of [st']. *)
Definition grows (st st' : store) : Prop :=
  forall s, carries st s -> carries st' s.

(** A step of a run that loses no identifier of the destination. *)
Definition dest_grows {A} (m : M store A) : Prop :=
  forall w r w', m w = (r, w') -> grows (dest w) (dest w').

End Store.

(** ** Reference collaborators

    Concrete collaborators on which the script can be run: converters that
    drop markup tags, a runtime on ASCII text whose local zone is UTC, and
    a source that serves scripted pages. *)

Module Reference.

Fixpoint strip_tags (inside : bool) (s : string) : string :=
  match s with
  | EmptyString => EmptyString
  | String c s' =>
      if Ascii.eqb c "<"%char then strip_tags true s'
      else if Ascii.eqb c ">"%char then strip_tags false s'
      else if inside then strip_tags inside s'
      else String c (strip_tags inside s')
  end.

Definition convert (v : value) : result string :=
  match v with
  | VStr s => Ok (strip_tags false s)
  | _ => Raise TypeError
  end.

Definition converters : Converters := {|
  markdownify := convert;
  html2text := convert
|}.

Fixpoint lstrip (s : string) : string :=
  match s with
  | EmptyString => EmptyString
  | String c s' => if Ascii.is_space c then lstrip s' else s
  end.

Definition strip (s : string) : string :=
  String.rev (lstrip (String.rev (lstrip s))).

Definition lower_char (c : ascii) : ascii :=
  let n := Ascii.N_of_ascii c in
  if ((65 <=? n) && (n <=? 90))%N then Ascii.ascii_of_N (n + 32) else c.

Fixpoint lower (s : string) : string :=
  match s with
  | EmptyString => EmptyString
  | String c s' => String (lower_char c) (lower s')
  end.

Fixpoint digits (acc : Z) (l : list ascii) : option Z :=
  match l with
  | [] => Some acc
  | c :: l' =>
      match Ascii.is_nat c with
      | Some n => digits (10 * acc + Z.of_nat n) l'
      | None => None
      end
  end.

Definition number (l : list ascii) : option Z :=
  match l with
  | [] => None
  | _ => digits 0 l
  end.

Definition int (s : string) : option Z :=
  match String.list_ascii_of_string (strip s) with
  | "-"%char :: l => Z.opp <$> number l
  | "+"%char :: l => number l
  | l => number l
  end.

(** The fields of a timestamp written [YYYY-MM-DD HH:MM:SS]. *)
Record tm := Tm { year : Z; mon : Z; mday : Z; hour : Z; min : Z; sec : Z }.

Definition in_range (lo hi x : Z) : bool := ((lo <=? x) && (x <=? hi))%Z.

Definition parse (s : string) : option tm :=
  match String.list_ascii_of_string s with
  | [y1; y2; y3; y4; "-"; m1; m2; "-"; d1; d2; " "; h1; h2; ":"; n1; n2; ":"; s1; s2]%char =>
      y ← digits 0 [y1; y2; y3; y4];
      m ← digits 0 [m1; m2];
      d ← digits 0 [d1; d2];
      h ← digits 0 [h1; h2];
      n ← digits 0 [n1; n2];
      x ← digits 0 [s1; s2];
      if in_range 1 12 m && in_range 1 31 d && in_range 0 23 h
         && in_range 0 59 n && in_range 0 61 x
      then Some (Tm y m d h n x)
      else None
  | _ => None
  end.

(** Days from 1970-01-01 to a civil date. *)
Definition days_from_civil (y m d : Z) : Z :=
  let y' := (if m <=? 2 then y - 1 else y)%Z in
  let era := (y' / 400)%Z in
  let yoe := (y' - era * 400)%Z in
  let mp := ((m + 9) mod 12)%Z in
  let doy := ((153 * mp + 2) / 5 + d - 1)%Z in
  let doe := (yoe * 365 + yoe / 4 - yoe / 100 + doy)%Z in
  (era * 146097 + doe - 719468)%Z.

Definition epoch (t : tm) : Z :=
  (days_from_civil (year t) (mon t) (mday t) * 86400
   + hour t * 3600 + min t * 60 + sec t)%Z.

Definition runtime (environ : list (string * string)) : Runtime := {|
  getenv := fun name => snd <$> List.find (fun kv => String.eqb (fst kv) name) environ;
  str_strip := strip;
  str_lower := lower;
  int_of_str := int;
  struct_time := tm;
  strptime := parse;
  mktime := fun t => Some (epoch t);
  random_choice_cover := fun n => "cover-" +:+ pretty n
|}.

(** Modelled from the spec: [utils.truncate_string], not in the source
    file, cuts the title at a fixed number of characters (spec, section
    4.5). *)
Definition truncate (s : string) : string := String.substring 0 100 s.

(** Modelled from the spec: [utils.is_within_n_days], not in the source
    file.  A timestamp is within [n] days when it is at most [n] days
    before [now]; a timestamp that does not parse is not, and nothing is
    raised (spec, section 4.2). *)
Definition within (now : Z) (updated_at : value) (n : Z) : result bool :=
  match updated_at with
  | VStr s =>
      match parse s with
      | Some t => Ok (bool_decide (now - epoch t ≤ n * 86400)%Z)
      | None => Ok false
      end
  | _ => Ok false
  end.

Definition utils (now : Z) : Utils := {|
  truncate_string := truncate;
  is_within_n_days := within now
|}.

(** A source that serves the page scripted for a cursor, and an empty page
    for any other cursor. *)
Definition flomo (pages : list (string * list value)) : Flomo := {|
  get_memo_list := fun _ cursor =>
    Ok (match List.find (fun cp => String.eqb (fst cp) cursor) pages with
        | Some cp => snd cp
        | None => []
        end)
|}.

(** An empty destination before any write. *)
Definition empty_world : world Store.store := World [] [] 0.

(** Two memos that share the slug ["a"], and the source that serves them
    on the first page. *)
Definition memo_a : value :=
  VDict [ ("slug", VStr "a"); ("content", VStr "<p>hi</p>");
          ("updated_at", VStr "2024-01-01 00:00:00") ].

Definition memo_a_again : value :=
  VDict [ ("slug", VStr "a"); ("content", VStr "<p>hi again</p>");
          ("updated_at", VStr "2024-01-01 00:00:05") ].

Definition one_memo : Flomo := flomo [("0", [memo_a])].

Definition twin_memos : Flomo := flomo [("0", [memo_a; memo_a_again])].

(** Noon of 2024-01-02 and of 2024-03-01, in epoch seconds. *)
Definition next_day : Z := 1704196800.
Definition two_months_later : Z := 1709294400.

(** [sync_to_notion] on the reference collaborators, at the moment [now]
    and in the environment [environ]. *)
Definition sync (source : Flomo) (now : Z) (environ : list (string * string))
    (fuel : nat) (w : world Store.store) : option (result unit * world Store.store) :=
  @sync_to_notion converters (utils now) (runtime environ) source
    Store.store Store.page Store.notion fuel w.

(** The index a run builds from the destination of [w]. *)
Definition index (w : world Store.store) : gmap string value :=
  @build_slug_map Store.store Store.page Store.notion (dest w).

(** The world a next run starts from: the destination as the last run left
    it, and no write issued yet. *)
Definition next_run (w : world Store.store) : world Store.store :=
  World (dest w) [] (draws w).

(** The writes of a second run that follows a completed first run from an
    empty destination, both at the moment [now] with full-update off. *)
Definition second_run_writes (source : Flomo) (now : Z) : option (list call) :=
  match sync source now [] 2 empty_world with
  | Some (Ok tt, w) => (calls ∘ snd) <$> sync source now [] 2 (next_run w)
  | _ => None
  end.

(** A memo with another slug, a memo without one, and a memo whose
    timestamp is not in the source's format. *)
Definition memo_b : value :=
  VDict [ ("slug", VStr "b"); ("content", VNone);
          ("files", VList [VDict [("type", VStr "image"); ("url", VStr "https://img/1.png")]]);
          ("updated_at", VStr "2024-01-01 00:00:09") ].

Definition memo_without_slug : list (string * value) :=
  [ ("content", VStr "<p>hi</p>"); ("updated_at", VStr "2024-01-01 00:00:00") ].

Definition memo_malformed : value :=
  VDict [ ("slug", VStr "m"); ("content", VStr "<p>hi</p>");
          ("updated_at", VStr "2024/01/01") ].

Definition two_memos : Flomo := flomo [("0", [memo_a; memo_b])].

Definition malformed_page : Flomo := flomo [("0", [memo_a; memo_malformed])].

Definition slugless_memo : Flomo := flomo [("0", [VDict memo_without_slug])].

(** The world a first run on [one_memo] ends in, from an empty
    destination. *)
Definition first_run_world : world Store.store :=
  World
    [ Store.Page "page-0"
        [ ("标题", get_title "hi");
          ("标签", get_multi_select (VList []));
          ("是否置顶", get_select (VStr "否"));
          ("slug", get_rich_text (VStr "a"));
          ("创建时间", get_date (VStr ""));
          ("更新时间", get_date (VStr "2024-01-01 00:00:00"));
          ("来源", get_select (VStr ""));
          ("链接数量", get_number (VInt 0)) ]
        ["hi"] ]
    [ PagesCreate [("database_id", VStr "database"); ("type", VStr "database_id")]
        (get_icon "https://www.notion.so/icons/target_red.svg")
        (get_icon "cover-0")
        [ ("标题", get_title "hi");
          ("标签", get_multi_select (VList []));
          ("是否置顶", get_select (VStr "否"));
          ("slug", get_rich_text (VStr "a"));
          ("创建时间", get_date (VStr ""));
          ("更新时间", get_date (VStr "2024-01-01 00:00:00"));
          ("来源", get_select (VStr ""));
          ("链接数量", get_number (VInt 0)) ];
      UploadContent "hi" (VStr "page-0") ]
    1.

(** A destination that holds one record, with identifier ["a"]. *)
Definition synced_world : world Store.store :=
  World [Store.Page "page-0" [("slug", get_rich_text (VStr "a"))] ["hi"]] [] 1.

End Reference.

(** ** Observations on the writes of a run *)

(** Whatever a step of a run issues satisfies [P]. *)
Definition issues {D A} (P : call -> Prop) (m : M D A) : Prop :=
  forall w r w', m w = (r, w') ->
    exists issued, calls w' = calls w ++ issued /\ Forall P issued.

Section Observations.
Context `{Utils} `{Runtime} `{Flomo} {D R : Type} `{Notion D R}.

(** The non-empty identifiers the records carry, in scan order. *)
Definition indexed_slugs (notion_memo_list : list R) : list string :=
  filter (fun key => key <> "")
    (omap (fun notion_memo => get_rich_text_from_result notion_memo "slug")
       notion_memo_list).

(** A create or a property update that the loop of [sync_to_notion] can
    account for: a create carries the properties of a fetched memo whose
    slug the index does not have, a property update goes to the handle the
    index gives for the slug of a fetched memo, with its properties. *)
Definition justified (slug_map : gmap string value) (memo_list : list value)
    (c : call) : Prop :=
  match c with
  | PagesCreate parent icon cover props =>
      parent = insert_parent /\ icon = insert_icon
      /\ exists d text,
           VDict d ∈ memo_list
           /\ slug_lookup (dict_get d "slug" VNone) slug_map = Ok None
           /\ props = insert_properties d text
  | PagesUpdate page props =>
      exists d s text,
        VDict d ∈ memo_list
        /\ dict_lookup d "slug" = Some (VStr s)
        /\ slug_map !! s = Some page
        /\ props = update_properties d text
  | ClearPageContent _ | UploadContent _ _ => True
  end.

(** Step 1 of [sync_to_notion] fails at [cursor] with [e]: the page request
    raises, or the cursor cannot be advanced past the page it returns. *)
Definition pagination_failure (authorization : option string) (cursor : string)
    (e : exn) : Prop :=
  get_memo_list authorization cursor = Raise e
  \/ exists page memo,
       get_memo_list authorization cursor = Ok page
       /\ last page = Some memo
       /\ latest_updated_at page = Raise e.


End Observations.

Module Cases.

(** A memo dated at the epoch origin: the cursor after it is ["0"] again. *)
Definition memo_at_origin : value :=
  VDict [ ("slug", VStr "o"); ("content", VStr "<p>origin</p>");
          ("updated_at", VStr "1970-01-01 00:00:00") ].

Definition stuck_source : Flomo := Reference.flomo [("0", [memo_at_origin])].

(** A source whose requests fail. *)
Definition failing_source : Flomo := {|
  get_memo_list := fun _ _ => Raise (CallFailed "get_memo_list")
|}.

Definition empty_source : Flomo := Reference.flomo [].

(** A memo without content whose image carries a number as url, and a
    memo after it. *)
Definition memo_numeric_url : value :=
  VDict [ ("slug", VStr "n");
          ("files", VList [VDict [("type", VStr "image"); ("url", VInt 1)]]);
          ("updated_at", VStr "2024-01-01 00:00:01") ].

(** A memo with content and an image. *)
Definition memo_text_and_image : list (string * value) :=
  [ ("slug", VStr "t"); ("content", VStr "<p>hi</p>");
    ("files", VList [VDict [("type", VStr "image"); ("url", VStr "https://img/2.png")]]) ].

(** A record with identifier ["b"], and a destination that holds it after
    the record of [Reference.synced_world]. *)
Definition page_b : Store.page :=
  Store.Page "page-1" [("slug", get_rich_text (VStr "b"))] [].

Definition two_pages_world : world Store.store :=
  World (dest Reference.synced_world ++ [page_b]) [] 2.

(** Pages on which a memo that cannot be normalized comes before an
    indexed memo, and before a memo without slug. *)
Definition blocked_indexed : Flomo :=
  Reference.flomo [("0", [memo_numeric_url; Reference.memo_a])].


(** A memo without content with a usable image and an image whose url
    is a number. *)
Definition memo_mixed_urls : value :=
  VDict [ ("content", VNone);
          ("files", VList [ VDict [("type", VStr "image"); ("url", VStr "https://img/1.png")];
                            VDict [("type", VStr "image"); ("url", VInt 1)] ]) ].

End Cases.

(** * Theorems *)

(** ** Python values *)

Lemma truthy_str (s : string) : truthy (VStr s) = true <-> s <> "".
Proof.
  simpl. destruct (String.eqb s "") eqn:E.
  - apply String.eqb_eq in E. split; [discriminate | congruence].
  - apply String.eqb_neq in E. split; auto.
Qed.

Lemma dict_get_lookup d k v default :
  dict_lookup d k = Some v -> dict_get d k default = v.
Proof. unfold dict_get. by intros ->. Qed.


Lemma content_missing_falsy d :
  content_missing d -> truthy (dict_get d "content" VNone) = false.
Proof. unfold dict_get. by intros [-> | [-> | ->]]. Qed.

Lemma files_listed_iter d :
  files_listed d ->
  py_iter (py_or (dict_get d "files" VNone) (VList [])) = Ok (memo_files d).
Proof.
  unfold dict_get, memo_files, py_or.
  intros [-> | [-> | [fs ->]]]; try done.
  by destruct fs.
Qed.

(** ** The content normalizer *)

Section Normalizer.
Context `{Converters}.

(** On entries whose image urls are text, the comprehension of the script
    selects what the specification's wording selects. *)
Lemma image_url_qualifying f :
  url_is_text f -> image_url f = VStr <$> qualifying_url f.
Proof.
  intros Hf. destruct f as [| | | | |fd]; try done.
  unfold image_url, qualifying_url, dict_get.
  destruct (dict_lookup fd "type") as [t|] eqn:Et; [|done].
  destruct t as [| | |t| |]; try done.
  simpl. destruct (String.eqb t "image") eqn:Ei; simpl.
  - apply String.eqb_eq in Ei. subst t.
    destruct (dict_lookup fd "url") as [u|] eqn:Eu; [|done].
    destruct (truthy u) eqn:Tu.
    + destruct (Hf fd u eq_refl Et Eu Tu) as [s ->].
      apply truthy_str in Tu. by rewrite decide_True.
    + destruct u as [| | |s| |]; try done.
      rewrite decide_False; [done|].
      intros [_ Hs]. apply truthy_str in Hs. congruence.
  - apply String.eqb_neq in Ei.
    destruct (dict_lookup fd "url") as [[| | |s| |]|]; try done.
    rewrite decide_False; [done | tauto].
Qed.

Lemma img_urls_qualifying fs :
  Forall url_is_text fs -> omap image_url fs = VStr <$> image_urls fs.
Proof.
  induction 1 as [|f fs Hf _ IH]; [done|].
  unfold image_urls in *. csimpl. rewrite image_url_qualifying by done.
  destruct (qualifying_url f); csimpl; by rewrite IH.
Qed.

Lemma as_strs_text ss : as_strs (VStr <$> ss) = Ok ss.
Proof. induction ss as [|s ss IH]; [done|]. csimpl. by rewrite IH. Qed.

(** The fallback branch, computed. *)
Lemma safe_md_and_text_fallback d :
  content_missing d -> files_listed d -> Forall url_is_text (memo_files d) ->
  _safe_md_and_text (VDict d)
  = Ok (join newline (image_urls (memo_files d)),
        join newline (image_urls (memo_files d))).
Proof.
  intros Hc Hl Hf. unfold _safe_md_and_text. cbn [as_dict rbind].
  rewrite content_missing_falsy by done. cbn [negb].
  rewrite files_listed_iter by done. cbn [rbind].
  rewrite img_urls_qualifying by done.
  destruct (image_urls (memo_files d)) as [|u us] eqn:E; [done|].
  unfold str_join. change (VStr <$> u :: us) with (VStr <$> (u :: us)).
  by rewrite as_strs_text.
Qed.

(** The other branch: a non-empty content goes through both converters,
    [markdownify] first. *)
Lemma safe_md_and_text_converted d :
  truthy (dict_get d "content" VNone) = true ->
  _safe_md_and_text (VDict d)
  = (try content_md := markdownify (dict_get d "content" VNone) in
     try content_text := html2text (dict_get d "content" VNone) in
     Ok (content_md, content_text)).
Proof. intros Hc. unfold _safe_md_and_text. cbn [as_dict rbind]. by rewrite Hc. Qed.

(** C4, as the script has it: for a memo whose content is absent, [None]
    or empty, whose [files] is absent, [None] or a list, and whose image
    entries have a text url whenever their url is not empty, the normalizer
    returns, as markdown body and as plain-text excerpt, the urls of the
    image entries with a non-empty url joined by newlines in the order of
    [memo.files], and two empty strings when there is no such entry. *)
Theorem safe_md_and_text_empty_content d :
  content_missing d -> files_listed d -> Forall url_is_text (memo_files d) ->
  _safe_md_and_text (VDict d)
  = Ok (join newline (image_urls (memo_files d)),
        join newline (image_urls (memo_files d)))
  /\ (image_urls (memo_files d) = [] -> _safe_md_and_text (VDict d) = Ok ("", "")).
Proof.
  intros Hc Hl Hf. split.
  - by apply safe_md_and_text_fallback.
  - intros E. rewrite safe_md_and_text_fallback by done. by rewrite E.
Qed.

(** Whatever the converters, a numeric image url makes [str.join] raise. *)
Lemma safe_md_and_text_numeric_url :
  _safe_md_and_text
    (VDict [("files", VList [VDict [("type", VStr "image"); ("url", VInt 1)]])])
  = Raise TypeError.
Proof. reflexivity. Qed.

Lemma as_strs_ok_text fs ss :
  as_strs (omap image_url fs) = Ok ss -> Forall url_is_text fs.
Proof.
  revert ss. induction fs as [|f fs IH]; intros ss Hs; [constructor|].
  csimpl in Hs. destruct (image_url f) as [u|] eqn:Eu.
  - csimpl in Hs. destruct u as [| | |s| |]; try discriminate.
    destruct (as_strs (omap image_url fs)) as [ss'|] eqn:Es; [|discriminate].
    constructor; [|by eapply IH].
    intros fd u -> Et Ef Tu. unfold image_url, dict_get in Eu.
    rewrite Et, Ef in Eu. simpl in Eu. rewrite Tu in Eu.
    simplify_eq. by eexists.
  - constructor; [|by eapply IH].
    intros fd u -> Et Ef Tu. unfold image_url, dict_get in Eu.
    rewrite Et, Ef in Eu. simpl in Eu. by rewrite Tu in Eu.
Qed.

(** C9, as the script has it: on a memo dictionary whose content is
    absent, [None] or empty and whose [files] is absent, [None] or a list,
    entries that are not dictionaries included, the normalizer returns a
    pair of strings exactly when every image entry with a non-empty url has
    a text url; it raises on no other ground. *)
Theorem safe_md_and_text_returns d :
  content_missing d -> files_listed d ->
  (exists md text, _safe_md_and_text (VDict d) = Ok (md, text))
  <-> Forall url_is_text (memo_files d).
Proof.
  intros Hc Hl. split.
  - intros (md & text & E). unfold _safe_md_and_text in E.
    cbn [as_dict rbind] in E.
    rewrite content_missing_falsy in E by done. cbn [negb] in E.
    rewrite files_listed_iter in E by done. cbn [rbind] in E.
    destruct (omap image_url (memo_files d)) as [|u us] eqn:Eo.
    + eapply (as_strs_ok_text _ []). by rewrite Eo.
    + unfold str_join in E.
      destruct (as_strs (u :: us)) as [ss|] eqn:Es; [|discriminate].
      eapply as_strs_ok_text. rewrite Eo. exact Es.
  - intros Hf. do 2 eexists. by apply safe_md_and_text_fallback.
Qed.

End Normalizer.

(** C9 as stated fails: a memo dictionary without content whose image
    attachment carries a number as url makes the normalizer raise
    [TypeError] (from [str.join]). *)
Lemma safe_md_and_text_raises :
  @_safe_md_and_text Reference.converters
    (VDict [("files", VList [VDict [("type", VStr "image"); ("url", VInt 1)]])])
  = Raise TypeError.
Proof. reflexivity. Qed.

(** C4 as stated fails: the content is [None], one image has a usable url
    and another carries a number as url; the normalizer raises [TypeError]
    instead of returning the joined urls. *)
Lemma empty_content_numeric_url_raises :
  @_safe_md_and_text Reference.converters Cases.memo_mixed_urls = Raise TypeError.
Proof. reflexivity. Qed.

Lemma safe_md_and_text_returns_witness :
  content_missing [("files", VList [VInt 3; VDict [("type", VStr "image"); ("url", VStr "u")]])]
  /\ files_listed [("files", VList [VInt 3; VDict [("type", VStr "image"); ("url", VStr "u")]])]
  /\ ((exists md text,
         @_safe_md_and_text Reference.converters
           (VDict [("files", VList [VInt 3; VDict [("type", VStr "image"); ("url", VStr "u")]])])
         = Ok (md, text))
      <-> Forall url_is_text
            (memo_files [("files", VList [VInt 3; VDict [("type", VStr "image"); ("url", VStr "u")]])])).
Proof.
  assert (Hc : content_missing
            [("files", VList [VInt 3; VDict [("type", VStr "image"); ("url", VStr "u")]])])
    by (left; reflexivity).
  assert (Hl : files_listed
            [("files", VList [VInt 3; VDict [("type", VStr "image"); ("url", VStr "u")]])])
    by (right; right; eexists; reflexivity).
  split; [exact Hc|]. split; [exact Hl|].
  exact (@safe_md_and_text_returns Reference.converters _ Hc Hl).
Defined.

Lemma url_is_text_not_dict f : is_dict f = false -> url_is_text f.
Proof. intros Hf fd u ->. discriminate. Qed.

Lemma url_is_text_str fd s :
  dict_lookup fd "url" = Some (VStr s) -> url_is_text (VDict fd).
Proof. intros Hu fd' u [= <-] _ Hu' _. rewrite Hu in Hu'. simplify_eq. by eexists. Qed.

Lemma safe_md_and_text_empty_content_witness :
  content_missing [("files", VList [VInt 3; VDict [("type", VStr "image"); ("url", VStr "u")]])]
  /\ @_safe_md_and_text Reference.converters
       (VDict [("files", VList [VInt 3; VDict [("type", VStr "image"); ("url", VStr "u")]])])
     = Ok ("u", "u").
Proof.
  split; [left; reflexivity|].
  refine (proj1 (@safe_md_and_text_empty_content Reference.converters
                   [("files", VList [VInt 3; VDict [("type", VStr "image"); ("url", VStr "u")]])]
                   _ _ _)).
  - left; reflexivity.
  - right; right; eexists; reflexivity.
  - repeat constructor.
    + by apply url_is_text_not_dict.
    + by eapply url_is_text_str.
Defined.

(** ** The identifier index *)

Section Index.
Context {D R : Type} `{Notion D R}.

Lemma build_slug_map_snoc (records : list R) (r : R) :
  build_slug_map (records ++ [r])
  = match get_rich_text_from_result r "slug" with
    | Some key =>
        if negb (String.eqb key "")
        then <[key := record_get_id r]> (build_slug_map records)
        else build_slug_map records
    | None => build_slug_map records
    end.
Proof. unfold build_slug_map. by rewrite foldl_snoc. Qed.

(** An identifier is indexed exactly when it is not empty and some record
    carries it. *)
Lemma build_slug_map_is_Some (records : list R) (key : string) :
  is_Some (build_slug_map records !! key)
  <-> key <> "" /\ exists r, r ∈ records /\ has_slug key r.
Proof.
  induction records as [|r records IH] using rev_ind.
  - unfold build_slug_map. simpl. rewrite lookup_empty. split.
    + by intros [? ?].
    + by intros [_ (r & Hr%not_elem_of_nil & _)].
  - rewrite build_slug_map_snoc.
    assert (Hin : forall r', r' ∈ records ++ [r] <-> r' ∈ records \/ r' = r).
    { intros r'. rewrite elem_of_app, list_elem_of_singleton. tauto. }
    destruct (get_rich_text_from_result r "slug") as [k|] eqn:Ek.
    + destruct (String.eqb k "") eqn:Ee; simpl.
      * apply String.eqb_eq in Ee. subst k. rewrite IH. split.
        -- intros [Hk (r' & Hr' & Hs)]. split; [done|].
           exists r'. rewrite Hin. auto.
        -- intros [Hk (r' & [Hr' | ->]%Hin & Hs)]; [by eauto|].
           unfold has_slug in Hs. congruence.
      * apply String.eqb_neq in Ee.
        destruct (decide (k = key)) as [->|Hne].
        -- rewrite lookup_insert_eq. split; [|by eauto].
           intros _. split; [done|]. exists r. rewrite Hin. auto.
        -- rewrite lookup_insert_ne, IH by done. split.
           ++ intros [Hk (r' & Hr' & Hs)]. split; [done|].
              exists r'. rewrite Hin. auto.
           ++ intros [Hk (r' & [Hr' | ->]%Hin & Hs)]; [by eauto|].
              unfold has_slug in Hs. congruence.
    + rewrite IH. split.
      * intros [Hk (r' & Hr' & Hs)]. split; [done|].
        exists r'. rewrite Hin. auto.
      * intros [Hk (r' & [Hr' | ->]%Hin & Hs)]; [by eauto|].
        unfold has_slug in Hs. congruence.
Qed.

Lemma build_slug_map_empty_key (records : list R) :
  build_slug_map records !! "" = None.
Proof.
  apply eq_None_not_Some. intros [Hk _]%build_slug_map_is_Some. done.
Qed.


End Index.

(** ** One memo: create, skip or update *)

Section Memo.
Context `{Converters} `{Utils} `{Runtime} {D R : Type} `{Notion D R}.

Lemma bind_ok {A B} (m : M D A) (k : A -> M D B) w b w' :
  bind m k w = (Ok b, w') ->
  exists a w1, m w = (Ok a, w1) /\ k a w1 = (Ok b, w').
Proof.
  unfold bind. destruct (m w) as [[a|e] w1]; [eauto | discriminate].
Qed.

Lemma lift_ok {A} (r : result A) (w : world D) a w' :
  lift r w = (Ok a, w') -> r = Ok a /\ w' = w.
Proof. unfold lift. by intros [= -> ->]. Qed.

Lemma random_choice_calls (w : world D) r w' :
  random_choice w = (r, w') -> calls w' = calls w /\ dest w' = dest w.
Proof. unfold random_choice. by intros [= _ <-]. Qed.

Lemma bind_cases {A B} (m : M D A) (k : A -> M D B) w r w' :
  bind m k w = (r, w') ->
  (exists e, m w = (Raise e, w') /\ r = Raise e)
  \/ (exists a w1, m w = (Ok a, w1) /\ k a w1 = (r, w')).
Proof.
  unfold bind. destruct (m w) as [[a|e] w1]; [eauto|].
  intros [= <- <-]. eauto.
Qed.

Lemma lift_world {A} (r r' : result A) (w w' : world D) :
  lift r w = (r', w') -> r' = r /\ w' = w.
Proof. unfold lift. by intros [= -> ->]. Qed.

Lemma created_slugs_app cs cs' :
  created_slugs (cs ++ cs') = created_slugs cs ++ created_slugs cs'.
Proof. apply omap_app. Qed.

(** What a client or uploader call adds to the writes issued: itself. *)
Lemma issued_then_sent {A} (c : call) (f : D -> result A * D) (w : world D) r w' :
  bind (issue c) (fun _ => on_dest f) w = (r, w') -> calls w' = calls w ++ [c].
Proof.
  unfold bind, issue, on_dest. simpl. destruct (f (dest w)). by intros [= _ <-].
Qed.




(** The writes of [update_memo], however it ends: no record is created. *)
Lemma update_memo_creates_nothing memo page (w : world D) r w' :
  update_memo memo page w = (r, w') ->
  created_slugs (calls w') = created_slugs (calls w).
Proof.
  unfold update_memo. intros E.
  apply bind_cases in E as [(e & E & _) | ([md text] & w1 & E1 & E)].
  { by apply lift_world in E as [_ ->]. }
  apply lift_world in E1 as [_ ->].
  apply bind_cases in E as [(e & E & _) | (d & w1 & Ed & E)].
  { by apply lift_world in E as [_ ->]. }
  apply lift_world in Ed as [_ ->].
  apply bind_cases in E as [(e & E & _) | (page' & w1 & Eu & E)].
  { apply issued_then_sent in E. rewrite E, created_slugs_app, app_nil_r. done. }
  apply issued_then_sent in Eu.
  assert (C1 : created_slugs (calls w1) = created_slugs (calls w)).
  { rewrite Eu, created_slugs_app, app_nil_r. done. }
  apply bind_cases in E as [(e & E & _) | (i & w2 & Ei & E)].
  { by apply lift_world in E as [_ ->]. }
  apply lift_world in Ei as [_ ->].
  apply bind_cases in E as [(e & E & _) | ([] & w2 & Ec & E)].
  { apply issued_then_sent in E. rewrite E, created_slugs_app, app_nil_r. done. }
  apply issued_then_sent in Ec.
  assert (C2 : created_slugs (calls w2) = created_slugs (calls w)).
  { rewrite Ec, created_slugs_app, app_nil_r. done. }
  apply bind_cases in E as [(e & E & _) | (i' & w3 & Ei' & E)].
  { by apply lift_world in E as [_ ->]. }
  apply lift_world in Ei' as [_ ->].
  apply issued_then_sent in E. rewrite E, created_slugs_app, app_nil_r. done.
Qed.

(** The writes of [insert_memo], however it ends: at most one record is
    created, with the identifier of the memo. *)
Lemma insert_memo_creates memo (w : world D) r w' :
  insert_memo memo w = (r, w') ->
  created_slugs (calls w') = created_slugs (calls w)
  \/ created_slugs (calls w') = created_slugs (calls w) ++ [identifier memo].
Proof.
  unfold insert_memo. intros E.
  apply bind_cases in E as [(e & E & _) | ([md text] & w1 & E1 & E)].
  { left. by apply lift_world in E as [_ ->]. }
  apply lift_world in E1 as [_ ->].
  apply bind_cases in E as [(e & E & _) | (d & w1 & Ed & E)].
  { left. by apply lift_world in E as [_ ->]. }
  apply lift_world in Ed as [Ed ->].
  destruct memo as [| | | | |d0]; try discriminate.
  assert (d0 = d) as -> by (simpl in Ed; congruence).
  apply bind_cases in E as [(e & E & _) | (cover & w1 & Er & E)].
  { left. by apply random_choice_calls in E as [-> _]. }
  apply random_choice_calls in Er as [Cr _].
  right.
  apply bind_cases in E as [(e & E & _) | (page & w2 & Ec & E)].
  { apply issued_then_sent in E. rewrite E, Cr, created_slugs_app. done. }
  apply issued_then_sent in Ec.
  assert (C : created_slugs (calls w2)
              = created_slugs (calls w) ++ [identifier (VDict d)]).
  { rewrite Ec, Cr, created_slugs_app. done. }
  apply bind_cases in E as [(e & E & _) | (i & w3 & Ei & E)].
  { by apply lift_world in E as [_ ->]. }
  apply lift_world in Ei as [_ ->].
  apply issued_then_sent in E. rewrite E, created_slugs_app, app_nil_r. done.
Qed.

(** A completed [insert_memo] has issued one create and one upload. *)
Lemma insert_memo_writes memo (w w' : world D) :
  insert_memo memo w = (Ok tt, w') ->
  exists d md text i,
    memo = VDict d
    /\ _safe_md_and_text memo = Ok (md, text)
    /\ calls w' = calls w ++ [ PagesCreate insert_parent insert_icon
                                (get_icon (random_choice_cover (draws w)))
                                (insert_properties d text);
                              UploadContent md i ].
Proof.
  unfold insert_memo. intros E.
  apply bind_ok in E as ([md text] & w1 & E1 & E).
  apply lift_ok in E1 as [E1 ->].
  apply bind_ok in E as (d & w1 & Ed & E).
  apply lift_ok in Ed as [Ed ->].
  apply bind_ok in E as (cover & w1 & Er & E).
  unfold random_choice in Er. injection Er as <- <-.
  apply bind_ok in E as (page & w2 & Ec & E).
  apply issued_then_sent in Ec. simpl in Ec.
  apply bind_ok in E as (i & w3 & Ei & E).
  apply lift_ok in Ei as [Ei ->].
  apply issued_then_sent in E.
  destruct memo as [| | | | |d0]; try discriminate.
  assert (d0 = d) as -> by (simpl in Ed; congruence).
  exists d, md, text, i. repeat split; try done.
  rewrite E, Ec. by rewrite <- app_assoc.
Qed.

(** With full-update mode on, the loop body on an indexed memo is
    [update_memo]. *)
Lemma sync_memo_full_update interval_day (slug_map : gmap string value)
    d s page (w : world D) :
  dict_lookup d "slug" = Some (VStr s) ->
  slug_map !! s = Some page ->
  sync_memo true interval_day slug_map (VDict d) w = update_memo (VDict d) page w.
Proof.
  intros Hs Hp. unfold sync_memo, bind at 1 2, lift; simpl.
  rewrite (dict_get_lookup _ _ _ _ Hs). simpl. rewrite Hp.
  unfold bind at 1. simpl. done.
Qed.


End Memo.

(** ** The pagination loop *)

Section Paging.
Context `{Runtime} `{Flomo}.

Lemma latest_updated_at_epoch page memo :
  last page = Some memo ->
  forall cursor, latest_updated_at page = Ok cursor <-> epoch_cursor memo = Some cursor.
Proof.
  intros Hl cursor. unfold latest_updated_at, epoch_cursor. rewrite Hl.
  destruct memo as [| | | | |d]; simpl; try (split; discriminate).
  destruct (dict_lookup d "updated_at") as [u|]; simpl; [|split; discriminate].
  destruct u as [| | |s| |]; try (split; discriminate).
  destruct (strptime s) as [tm|]; simpl; [|split; discriminate].
  destruct (mktime tm) as [secs|]; simpl; [|split; discriminate].
  split; congruence.
Qed.

Lemma fetch_loop_step fuel authorization cursor memo_list page memo cursor' :
  get_memo_list authorization cursor = Ok page ->
  last page = Some memo ->
  latest_updated_at page = Ok cursor' ->
  fetch_loop (S fuel) authorization cursor memo_list
  = fetch_loop fuel authorization cursor' (memo_list ++ page).
Proof.
  intros Hg Hl Hc. simpl. rewrite Hg.
  destruct page as [|m page]; [discriminate|]. by rewrite Hc.
Qed.

(** Enough fuel follows a chain of pages to its end. *)
Lemma fetch_loop_chain authorization cursor pages cursor' :
  page_chain authorization cursor pages cursor' ->
  forall fuel memo_list, length pages <= fuel ->
    fetch_loop fuel authorization cursor memo_list
    = fetch_loop (fuel - length pages) authorization cursor' (memo_list ++ concat pages).
Proof.
  induction 1 as [cursor | cursor page memo cursor' pages cursor'' Hg Hl He _ IH];
    intros fuel memo_list Hf.
  - simpl. by rewrite Nat.sub_0_r, app_nil_r.
  - simpl in Hf. destruct fuel as [|fuel]; [lia|].
    erewrite fetch_loop_step;
      [| done | done | by apply (latest_updated_at_epoch _ _ Hl)].
    rewrite IH by lia. simpl. by rewrite <- app_assoc.
Qed.

Lemma fetch_loop_returns fuel authorization cursor memo_list result :
  fetch_loop fuel authorization cursor memo_list = Some (Ok result) ->
  exists pages cursor',
    page_chain authorization cursor pages cursor'
    /\ get_memo_list authorization cursor' = Ok []
    /\ result = memo_list ++ concat pages.
Proof.
  revert cursor memo_list.
  induction fuel as [|fuel IH]; intros cursor memo_list E; [discriminate|].
  simpl in E.
  destruct (get_memo_list authorization cursor) as [page|e] eqn:Hg; [|discriminate].
  destruct page as [|m page].
  - injection E as <-. exists [], cursor. split; [constructor|].
    split; [done|]. simpl. by rewrite app_nil_r.
  - destruct (latest_updated_at (m :: page)) as [cursor'|e] eqn:Hc; [|discriminate].
    apply IH in E as (pages & cursor'' & Hp & Hend & ->).
    destruct (last (m :: page)) as [memo|] eqn:Hl.
    + exists ((m :: page) :: pages), cursor''. split.
      * econstructor; [done | done | | done].
        by apply (latest_updated_at_epoch _ _ Hl).
      * split; [done|]. simpl. by rewrite <- app_assoc.
    + apply last_None in Hl. discriminate.
Qed.

(** C3: the loop returns exactly when the cursors, starting at ["0"] and
    moved after each non-empty page to the epoch seconds of the
    [updated_at] of its last memo, reach an empty page; what it returns is
    the concatenation of the pages in fetch order. *)
Theorem fetch_all_pagination (memo_list : list value) :
  (exists fuel, fetch_all fuel = Some (Ok memo_list))
  <-> exists pages, pagination (getenv "FLOMO_TOKEN") pages
                    /\ memo_list = concat pages.
Proof.
  unfold fetch_all, pagination. split.
  - intros [fuel E]. apply fetch_loop_returns in E as (pages & cursor & Hp & He & ->).
    exists pages. eauto.
  - intros (pages & (cursor & Hp & He) & ->).
    exists (S (length pages)).
    rewrite (fetch_loop_chain _ _ _ _ Hp) by lia.
    replace (S (length pages) - length pages) with 1 by lia.
    simpl. by rewrite He.
Qed.

(** An exception raised when the cursor is advanced ends the loop with it. *)
Lemma fetch_loop_raises authorization cursor pages cursor' page memo e :
  page_chain authorization cursor pages cursor' ->
  get_memo_list authorization cursor' = Ok page ->
  last page = Some memo ->
  latest_updated_at page = Raise e ->
  forall fuel memo_list, length pages < fuel ->
    fetch_loop fuel authorization cursor memo_list = Some (Raise e).
Proof.
  intros Hp Hg Hl Hc fuel memo_list Hf.
  rewrite (fetch_loop_chain _ _ _ _ Hp) by lia.
  destruct (fuel - length pages) as [|n] eqn:En; [lia|].
  simpl. rewrite Hg. destruct page as [|m page]; [discriminate|].
  by rewrite Hc.
Qed.

End Paging.

Section Fatal.
Context `{Converters} `{Utils} `{Runtime} `{Flomo} {D R : Type} `{Notion D R}.

(** C8: when a fetched page ends with a memo whose [updated_at] does not
    parse, the run ends with the exception of the parse, with nothing
    written and no further page requested, as soon as the fuel reaches that
    page. *)
Theorem malformed_timestamp_is_fatal pages cursor page memo u (w : world D) fuel :
  page_chain (getenv "FLOMO_TOKEN") "0" pages cursor ->
  get_memo_list (getenv "FLOMO_TOKEN") cursor = Ok page ->
  last page = Some memo ->
  subscript memo "updated_at" = Ok u ->
  (forall s, u = VStr s -> strptime s = None) ->
  length pages < fuel ->
  sync_to_notion fuel w = Some (Raise (parse_error u), w).
Proof.
  intros Hp Hg Hl Hu Hs Hf. unfold sync_to_notion, fetch_all.
  erewrite fetch_loop_raises; [done | done | done | done | | done].
  unfold latest_updated_at. rewrite Hl, Hu. simpl.
  destruct u as [| | |s| |]; try done.
  by rewrite (Hs s eq_refl).
Qed.

End Fatal.

(** ** A run: every memo reaches the loop body *)

Section Extends.
Context `{Runtime} {D : Type}.

Lemma extends_bind {A B} (m : M D A) (k : A -> M D B) :
  extends m -> (forall a, extends (k a)) -> extends (bind m k).
Proof.
  intros Hm Hk w r w' E. unfold bind in E.
  destruct (m w) as [[a|e] w1] eqn:Em.
  - etrans; [by eapply Hm | by eapply Hk].
  - injection E as _ <-. by eapply Hm.
Qed.

Lemma extends_ret {A} (a : A) : extends (ret (D := D) a).
Proof. by intros w r w' [= _ <-]. Qed.

Lemma extends_lift {A} (r : result A) : extends (lift (D := D) r).
Proof. by intros w r' w' [= _ <-]. Qed.

Lemma extends_issue c : extends (issue (D := D) c).
Proof. intros w r w' [= _ <-]. simpl. by apply prefix_app_r. Qed.

Lemma extends_on_dest {A} (f : D -> result A * D) : extends (on_dest f).
Proof.
  intros w r w' E. unfold on_dest in E. destruct (f (dest w)).
  by injection E as _ <-.
Qed.

Lemma extends_random_choice : extends (random_choice (D := D)).
Proof. by intros w r w' [= _ <-]. Qed.

Lemma for_each_extends {A} (body : A -> M D unit) l :
  (forall x, extends (body x)) -> extends (for_each body l).
Proof.
  intros Hb. induction l as [|x l IH]; simpl.
  - apply extends_ret.
  - apply extends_bind; [apply Hb | by intros _].
Qed.


Lemma for_each_app {A} (body : A -> M D unit) l1 l2 (w : world D) :
  for_each body (l1 ++ l2) w
  = bind (for_each body l1) (fun _ => for_each body l2) w.
Proof.
  revert w. induction l1 as [|x l1 IH]; intros w; [done|].
  simpl. unfold bind. destruct (body x w) as [[[]|e] w1]; [|done].
  rewrite IH. by unfold bind.
Qed.

End Extends.

Ltac extends :=
  repeat first
    [ apply extends_bind; [| intros ?]
    | apply extends_ret | apply extends_lift | apply extends_issue
    | apply extends_on_dest | apply extends_random_choice
    | match goal with |- extends (match ?x with _ => _ end) => destruct x end
    | match goal with |- extends (if ?x then _ else _) => destruct x end ].

Section Run.
Context `{Converters} `{Utils} `{Runtime} `{Flomo} {D R : Type} `{Notion D R}.

Lemma insert_memo_extends memo : extends (insert_memo (D := D) memo).
Proof.
  unfold insert_memo, client_pages_create, uploader_uploadSingleFileContent.
  extends.
Qed.

Lemma update_memo_extends memo page : extends (update_memo (D := D) memo page).
Proof.
  unfold update_memo, client_pages_update, helper_clear_page_content,
    uploader_uploadSingleFileContent. extends.
Qed.

Lemma sync_memo_extends full_update interval_day slug_map memo :
  extends (sync_memo (D := D) full_update interval_day slug_map memo).
Proof.
  unfold sync_memo. extends;
    first [ apply update_memo_extends | apply insert_memo_extends ].
Qed.


(** Once the content of a memo is normalized, the first thing
    [update_memo] does is issue the property update, and the first thing
    [insert_memo] does is draw a cover and issue the create. *)
Lemma update_memo_first_write d page md text (w : world D) r w' :
  _safe_md_and_text (VDict d) = Ok (md, text) ->
  update_memo (VDict d) page w = (r, w') ->
  calls w ++ [PagesUpdate page (update_properties d text)] `prefix_of` calls w'.
Proof.
  intros En E. unfold update_memo, bind at 1 2, lift in E. rewrite En in E.
  cbn [as_dict] in E.
  apply bind_cases in E as [(e & E & _) | (page' & w1 & Eu & E)].
  - apply issued_then_sent in E. by rewrite E.
  - apply issued_then_sent in Eu. rewrite <- Eu.
    revert E. generalize w1. clear.
    assert (G : extends (D := D)
              (bind (lift (record_subscript_id page'))
                 (fun cleared =>
                    bind (helper_clear_page_content cleared)
                      (fun _ =>
                         bind (lift (record_subscript_id page'))
                           (fun uploaded =>
                              uploader_uploadSingleFileContent md uploaded))))).
    { unfold helper_clear_page_content, uploader_uploadSingleFileContent. extends. }
    intros w1 E. by eapply G.
Qed.


(** The run, once the memos before [memo] have been processed. *)
Lemma reconcile_reaches l1 memo l2 records (w w1 : world D) r w' :
  query_all helper_page_id (dest w) = Ok records ->
  reconcile l1 w = (Ok tt, w1) ->
  reconcile (l1 ++ memo :: l2) w = (r, w') ->
  (exists e,
      sync_memo (_parse_bool_env "FULL_UPDATE" false)
        (_parse_int_env "UPDATE_INTERVAL_DAY" 7) (build_slug_map records) memo w1
      = (Raise e, w') /\ r = Raise e)
  \/ (exists w2,
        sync_memo (_parse_bool_env "FULL_UPDATE" false)
          (_parse_int_env "UPDATE_INTERVAL_DAY" 7) (build_slug_map records) memo w1
        = (Ok tt, w2) /\ calls w2 `prefix_of` calls w').
Proof.
  intros Hq E1 E. unfold reconcile, bind at 1, read_dest in E1.
  unfold reconcile, bind at 1, read_dest in E. rewrite Hq in *.
  rewrite for_each_app in E. unfold bind at 1 in E. rewrite E1 in E.
  simpl in E. apply bind_cases in E as [(e & E & ->) | ([] & w2 & E2 & E)].
  - left. by exists e.
  - right. exists w2. split; [done|].
    eapply for_each_extends; [|exact E]. intros x. apply sync_memo_extends.
Qed.

(** C6, as the script has it: with full-update mode on, an indexed memo
    that the loop reaches (the memos before it were processed without an
    exception) is not skipped, whatever its [updated_at] and whatever the
    freshness test would answer: when its content normalizes, the property
    update at the handle the index gives is issued next; otherwise the run
    ends there with the exception of the normalizer. *)
Theorem full_update_never_skips l1 d l2 s page records (w w1 : world D) r w' :
  _parse_bool_env "FULL_UPDATE" false = true ->
  query_all helper_page_id (dest w) = Ok records ->
  reconcile l1 w = (Ok tt, w1) ->
  dict_lookup d "slug" = Some (VStr s) ->
  build_slug_map records !! s = Some page ->
  reconcile (l1 ++ VDict d :: l2) w = (r, w') ->
  match _safe_md_and_text (VDict d) with
  | Ok (md, text) =>
      calls w1 ++ [PagesUpdate page (update_properties d text)] `prefix_of` calls w'
  | Raise e => r = Raise e /\ w' = w1
  end.
Proof.
  intros Hon Hq E1 Hs Hp E.
  destruct (reconcile_reaches _ _ _ _ _ _ _ _ Hq E1 E)
    as [(e & Em & ->) | (w2 & Em & Hpre)];
    rewrite Hon, (sync_memo_full_update _ _ _ _ _ _ Hs Hp) in Em.
  - destruct (_safe_md_and_text (VDict d)) as [[md text]|e'] eqn:En.
    + by eapply update_memo_first_write.
    + unfold update_memo, bind, lift in Em. rewrite En in Em.
      by injection Em as <- <-.
  - destruct (_safe_md_and_text (VDict d)) as [[md text]|e'] eqn:En.
    + etrans; [|exact Hpre]. by eapply update_memo_first_write.
    + unfold update_memo, bind, lift in Em. rewrite En in Em. discriminate.
Qed.


Lemma sync_memo_creates full_update interval_day (slug_map : gmap string value)
    memo (w : world D) r w' :
  slug_map !! "" = None ->
  sync_memo full_update interval_day slug_map memo w = (r, w') ->
  created_slugs (calls w') = created_slugs (calls w)
  \/ (created_slugs (calls w') = created_slugs (calls w) ++ [identifier memo]
      /\ forall s, identifier memo = VStr s -> slug_map !! s = None).
Proof.
  intros Hempty. unfold sync_memo. intros E.
  apply bind_cases in E as [(e & E & _) | (d & w1 & Ed & E)].
  { left. by apply lift_world in E as [_ ->]. }
  apply lift_world in Ed as [Ed ->].
  destruct memo as [| | | | |d0]; try discriminate.
  assert (d0 = d) as -> by (simpl in Ed; congruence).
  apply bind_cases in E as [(e & E & _) | (found & w1 & Ef & E)].
  { left. by apply lift_world in E as [_ ->]. }
  apply lift_world in Ef as [Ef ->].
  destruct found as [page|].
  - left.
    apply bind_cases in E as [(e & E & _) | (skip & w1 & Es & E)].
    + destruct (negb full_update).
      * apply bind_cases in E as [(e' & E & _) | (within & w1 & Ew & E)].
        -- by apply lift_world in E as [_ ->].
        -- apply lift_world in Ew as [_ ->]. discriminate.
      * discriminate.
    + assert (w1 = w) as ->.
      { destruct (negb full_update).
        - apply bind_cases in Es as [(e' & Es & _) | (within & w2 & Ew & Es)].
          + by apply lift_world in Es as [_ ->].
          + apply lift_world in Ew as [_ ->]. by injection Es.
        - by injection Es. }
      destruct skip.
      * by injection E as _ <-.
      * by eapply update_memo_creates_nothing.
  - apply insert_memo_creates in E as [E | E]; [by left | right].
    split; [done|]. intros s Hs. simpl in Hs. unfold dict_get in Hs, Ef.
    destruct (dict_lookup d "slug") as [v|].
    + subst v. simpl in Ef. congruence.
    + by injection Hs as <-.
Qed.

Lemma for_each_creates full_update interval_day (slug_map : gmap string value)
    memo_list (w : world D) r w' :
  slug_map !! "" = None ->
  for_each (sync_memo full_update interval_day slug_map) memo_list w = (r, w') ->
  exists created,
    created_slugs (calls w') = created_slugs (calls w) ++ created
    /\ created `sublist_of` (identifier <$> memo_list)
    /\ forall s, VStr s ∈ created -> slug_map !! s = None.
Proof.
  intros Hempty. revert w.
  induction memo_list as [|memo memo_list IH]; intros w E.
  - injection E as _ <-. exists []. rewrite app_nil_r.
    split; [done|]. split; [done|]. by intros s ?%not_elem_of_nil.
  - simpl in E.
    apply bind_cases in E as [(e & E & _) | ([] & w1 & E1 & E)].
    + apply (sync_memo_creates _ _ _ _ _ _ _ Hempty) in E as [E | [E Hs]].
      * exists []. rewrite app_nil_r. split; [done|].
        split; [apply sublist_nil_l|]. by intros s ?%not_elem_of_nil.
      * exists [identifier memo]. split; [done|]. split.
        -- csimpl. apply sublist_skip, sublist_nil_l.
        -- intros s Hin%list_elem_of_singleton. by apply Hs.
    + apply IH in E as (created & E & Hsub & Hnone).
      apply (sync_memo_creates _ _ _ _ _ _ _ Hempty) in E1 as [E1 | [E1 Hs]].
      * exists created. rewrite E, E1. split; [done|]. split; [|done].
        csimpl. by apply sublist_cons.
      * exists (identifier memo :: created). rewrite E, E1, <- app_assoc.
        split; [done|]. split.
        -- csimpl. by apply sublist_skip.
        -- intros s [Hin|Hin]%elem_of_cons; [by apply Hs | by apply Hnone].
Qed.

(** C1, as the script has it: the index is read before every create and is
    not changed during the run.  A run creates no record for an identifier
    that is in the index when the run starts; the identifiers it creates
    records for are, in order, identifiers of fetched memos, each memo at
    most once; so when the fetched memos carry pairwise distinct
    identifiers it creates at most one record per identifier. *)
Theorem one_create_per_identifier fuel memo_list records (w : world D) :
  fetch_all fuel = Some (Ok memo_list) ->
  query_all helper_page_id (dest w) = Ok records ->
  calls w = [] ->
  exists r w',
    sync_to_notion fuel w = Some (r, w')
    /\ (forall s, is_Some (build_slug_map records !! s) ->
                  VStr s ∉ created_slugs (calls w'))
    /\ created_slugs (calls w') `sublist_of` (identifier <$> memo_list)
    /\ (NoDup (identifier <$> memo_list) -> NoDup (created_slugs (calls w'))).
Proof.
  intros Hf Hq Hc. unfold sync_to_notion. rewrite Hf.
  destruct (reconcile memo_list w) as [r w'] eqn:E.
  exists r, w'. split; [done|].
  unfold reconcile, bind, read_dest in E. rewrite Hq in E.
  apply for_each_creates in E as (created & E & Hsub & Hnone);
    [|apply build_slug_map_empty_key].
  rewrite Hc in E. simpl in E. rewrite E. split; [|split].
  - intros s [page Hs] Hin. apply Hnone in Hin. congruence.
  - done.
  - intros Hnd. by eapply sublist_NoDup.
Qed.

End Run.

(** C6 as stated fails: full-update mode is on and memo ["a"] is in the
    index, but the memo fetched before it cannot be normalized; the run
    ends there with [TypeError] and no update is issued for ["a"]. *)
Lemma full_update_run_stops_before_indexed_memo :
  @_parse_bool_env (Reference.runtime [("FULL_UPDATE", "true")]) "FULL_UPDATE" false = true
  /\ Reference.index Reference.synced_world !! "a" = Some (VStr "page-0")
  /\ Reference.sync Cases.blocked_indexed Reference.two_months_later
       [("FULL_UPDATE", "true")] 2 Reference.synced_world
     = Some (Raise TypeError, Reference.synced_world).
Proof. repeat split; vm_compute; reflexivity. Qed.


(** C1 as stated fails: two fetched memos share the slug ["a"], no record
    carries it when the run starts, and the run creates two records with
    it. *)
Lemma duplicate_slug_created_twice :
  Reference.index Reference.empty_world !! "a" = None
  /\ (created_slugs ∘ calls ∘ snd)
       <$> Reference.sync Reference.twin_memos Reference.next_day [] 2 Reference.empty_world
     = Some [VStr "a"; VStr "a"].
Proof. split; vm_compute; reflexivity. Qed.

(** ** Two runs in succession, on the reference destination *)

Section StoreSteps.

Lemma prop_lookup_app_unnamed ps rest name :
  Store.named_in ps name = false ->
  prop_lookup (ps ++ rest) name = prop_lookup rest name.
Proof.
  unfold Store.named_in. induction ps as [|[n v] ps IH]; [done|].
  simpl. intros [Hn Hps]%orb_false_iff.
  rewrite String.eqb_sym, Hn. by apply IH.
Qed.

Lemma prop_lookup_filter_unnamed ps old name :
  Store.named_in ps name = false ->
  prop_lookup (List.filter (fun kv => negb (Store.named_in ps (fst kv))) old) name
  = prop_lookup old name.
Proof.
  intros Hn. induction old as [|[n v] old IH]; [done|].
  simpl. destruct (Store.named_in ps n) eqn:En; simpl.
  - destruct (String.eqb n name) eqn:E; [|done].
    apply String.eqb_eq in E. congruence.
  - by rewrite IH.
Qed.

Lemma prop_lookup_replace ps old name :
  Store.named_in ps name = false ->
  prop_lookup (Store.replace_props ps old) name = prop_lookup old name.
Proof.
  intros Hn. unfold Store.replace_props.
  by rewrite prop_lookup_app_unnamed, prop_lookup_filter_unnamed.
Qed.

Lemma grows_refl st : Store.grows st st.
Proof. by intros s. Qed.

Lemma grows_trans st1 st2 st3 :
  Store.grows st1 st2 -> Store.grows st2 st3 -> Store.grows st1 st3.
Proof. intros H12 H23 s Hs. by apply H23, H12. Qed.

Lemma grows_snoc st r : Store.grows st (st ++ [r]).
Proof. intros s (r' & Hin & Hs). exists r'. split; [|done]. apply elem_of_app. by left. Qed.

Lemma modify_grows h f st r' st' :
  (forall r, Store.read_rich_text (f r) "slug" = Store.read_rich_text r "slug") ->
  Store.modify h f st = Some (r', st') ->
  Store.grows st st'.
Proof.
  intros Hf. revert r' st'.
  induction st as [|r st IH]; intros r' st' E; [discriminate|].
  simpl in E. destruct (String.eqb (Store.handle r) h).
  - injection E as _ <-. intros s (r0 & [->|Hin]%elem_of_cons & Hs).
    + exists (f r). split; [left | by rewrite Hf].
    + exists r0. split; [by right | done].
  - destruct (Store.modify h f st) as [[r1 st1]|]; [|discriminate].
    injection E as _ <-. intros s (r0 & [->|Hin]%elem_of_cons & Hs).
    + exists r. split; [left | done].
    + destruct (IH r1 st1 eq_refl s) as (r2 & Hin2 & Hs2); [by exists r0|].
      exists r2. split; [by right | done].
Qed.

Lemma on_page_grows who page f st r st' :
  (forall r, Store.read_rich_text (f r) "slug" = Store.read_rich_text r "slug") ->
  Store.on_page who page f st = (r, st') ->
  Store.grows st st'.
Proof.
  intros Hf. unfold Store.on_page.
  destruct page; try (intros [= _ <-]; apply grows_refl).
  destruct (Store.modify s f st) as [[r1 st1]|] eqn:E.
  - intros [= _ <-]. by eapply modify_grows.
  - intros [= _ <-]. apply grows_refl.
Qed.

Lemma store_create_grows parent icon cover ps st r st' :
  Store.create parent icon cover ps st = (r, st') -> Store.grows st st'.
Proof. unfold Store.create. intros [= _ <-]. apply grows_snoc. Qed.

Lemma store_update_grows page ps st r st' :
  Store.named_in ps "slug" = false ->
  Store.update page ps st = (r, st') -> Store.grows st st'.
Proof.
  intros Hn. unfold Store.update. apply on_page_grows.
  intros r0. unfold Store.read_rich_text. simpl. by rewrite prop_lookup_replace.
Qed.

Lemma store_clear_grows page st r st' :
  Store.clear page st = (r, st') -> Store.grows st st'.
Proof.
  unfold Store.clear, Store.discard.
  destruct (Store.on_page _ _ _ _) as [r0 st0] eqn:E. intros [= _ <-].
  by eapply on_page_grows in E.
Qed.

Lemma store_upload_grows md page st r st' :
  Store.upload md page st = (r, st') -> Store.grows st st'.
Proof.
  unfold Store.upload, Store.discard.
  destruct (Store.on_page _ _ _ _) as [r0 st0] eqn:E. intros [= _ <-].
  by eapply on_page_grows in E.
Qed.

(** The steps of a run compose. *)
Lemma dest_grows_bind {A B} (m : M Store.store A) (k : A -> M Store.store B) :
  Store.dest_grows m -> (forall a, Store.dest_grows (k a)) -> Store.dest_grows (bind m k).
Proof.
  intros Hm Hk w r w' E. unfold bind in E.
  destruct (m w) as [[a|e] w1] eqn:Em.
  - eapply grows_trans; [by eapply Hm | by eapply Hk].
  - injection E as _ <-. by eapply Hm.
Qed.

Lemma dest_grows_ret {A} (a : A) : Store.dest_grows (ret a).
Proof. intros w r w' [= _ <-]. apply grows_refl. Qed.

Lemma dest_grows_lift {A} (r : result A) : Store.dest_grows (lift r).
Proof. intros w r' w' [= _ <-]. apply grows_refl. Qed.

Lemma dest_grows_issue c : Store.dest_grows (issue c).
Proof. intros w r w' [= _ <-]. apply grows_refl. Qed.

Lemma dest_grows_random_choice `{Runtime} : Store.dest_grows random_choice.
Proof. intros w r w' [= _ <-]. apply grows_refl. Qed.

Lemma dest_grows_on_dest {A} (f : Store.store -> result A * Store.store) :
  (forall st r st', f st = (r, st') -> Store.grows st st') ->
  Store.dest_grows (on_dest f).
Proof.
  intros Hf w r w' E. unfold on_dest in E.
  destruct (f (dest w)) as [r0 st0] eqn:Ef. injection E as _ <-.
  by eapply Hf.
Qed.

End StoreSteps.

Create HintDb grows.

#[export] Hint Resolve dest_grows_ret dest_grows_lift dest_grows_issue
  dest_grows_random_choice : grows.

Ltac dest_grows :=
  repeat first
    [ apply dest_grows_bind; [| intros ?]
    | progress auto with grows
    | apply dest_grows_on_dest; intros ? ? ?;
      first [ apply store_create_grows | apply store_clear_grows
            | apply store_upload_grows
            | by apply store_update_grows ]
    | match goal with |- Store.dest_grows (match ?x with _ => _ end) => destruct x end
    | match goal with |- Store.dest_grows (if ?x then _ else _) => destruct x end ].

Section TwoRuns.
Context `{Converters} `{Utils} `{Runtime} `{Flomo}.

Lemma update_memo_grows memo page : Store.dest_grows (update_memo memo page).
Proof.
  unfold update_memo, client_pages_update, helper_clear_page_content,
    uploader_uploadSingleFileContent. dest_grows.
Qed.

Lemma insert_memo_grows memo : Store.dest_grows (insert_memo memo).
Proof.
  unfold insert_memo, client_pages_create, uploader_uploadSingleFileContent.
  dest_grows.
Qed.

Lemma sync_memo_grows full_update interval_day slug_map memo :
  Store.dest_grows (sync_memo full_update interval_day slug_map memo).
Proof.
  unfold sync_memo. dest_grows;
    first [ apply update_memo_grows | apply insert_memo_grows ].
Qed.

Lemma for_each_grows full_update interval_day slug_map memo_list :
  Store.dest_grows (for_each (sync_memo full_update interval_day slug_map) memo_list).
Proof.
  induction memo_list as [|memo memo_list IH]; simpl.
  - apply dest_grows_ret.
  - apply dest_grows_bind; [apply sync_memo_grows | by intros _].
Qed.

(** A completed insert leaves a record that carries the slug of the memo. *)
Lemma insert_memo_adds d s (w w' : world Store.store) :
  dict_lookup d "slug" = Some (VStr s) ->
  insert_memo (VDict d) w = (Ok tt, w') ->
  Store.carries (dest w') s.
Proof.
  intros Hs. unfold insert_memo. intros E.
  apply bind_ok in E as ([md text] & w1 & E1 & E).
  apply lift_ok in E1 as [E1 ->].
  apply bind_ok in E as (d' & w1 & Ed & E).
  apply lift_ok in Ed as [[= <-] ->].
  apply bind_ok in E as (cover & w1 & Er & E).
  apply bind_ok in E as (page & w2 & Ec & E).
  assert (Hc : Store.carries (dest w2) s).
  { unfold client_pages_create, bind, issue, on_dest in Ec. simpl in Ec.
    injection Ec as _ <-. simpl.
    eexists. split; [apply elem_of_app; right; left|].
    unfold Store.read_rich_text. simpl. unfold dict_get. by rewrite Hs. }
  revert E. generalize w2 Hc. clear.
  intros w2 Hc E.
  assert (G : Store.dest_grows
            (bind (lift (record_subscript_id page))
               (fun page_id' => uploader_uploadSingleFileContent md page_id'))).
  { unfold uploader_uploadSingleFileContent. dest_grows. }
  by eapply G.
Qed.

Lemma sync_memo_adds full_update interval_day (slug_map : gmap string value)
    d s (w w' : world Store.store) :
  dict_lookup d "slug" = Some (VStr s) ->
  (is_Some (slug_map !! s) -> Store.carries (dest w) s) ->
  sync_memo full_update interval_day slug_map (VDict d) w = (Ok tt, w') ->
  Store.carries (dest w') s.
Proof.
  intros Hs Hidx E.
  destruct (slug_map !! s) as [page|] eqn:Hp.
  - eapply sync_memo_grows; [exact E|]. apply Hidx. by eexists.
  - unfold sync_memo, bind at 1 2, lift in E; simpl in E.
    rewrite (dict_get_lookup _ _ _ _ Hs) in E. simpl in E. rewrite Hp in E.
    by eapply insert_memo_adds.
Qed.

Lemma for_each_adds full_update interval_day (slug_map : gmap string value)
    memo_list (w w' : world Store.store) :
  (forall s, is_Some (slug_map !! s) -> Store.carries (dest w) s) ->
  for_each (sync_memo full_update interval_day slug_map) memo_list w = (Ok tt, w') ->
  forall d s, VDict d ∈ memo_list -> dict_lookup d "slug" = Some (VStr s) ->
    Store.carries (dest w') s.
Proof.
  revert w. induction memo_list as [|memo memo_list IH]; intros w Hidx E d s Hin Hs.
  - by apply not_elem_of_nil in Hin.
  - simpl in E. apply bind_ok in E as ([] & w1 & E1 & E).
    assert (G1 : Store.grows (dest w) (dest w1)) by (by eapply sync_memo_grows).
    apply elem_of_cons in Hin as [<- | Hin].
    + eapply for_each_grows; [exact E|].
      eapply sync_memo_adds; [exact Hs | | exact E1]. apply Hidx.
    + eapply IH; [| exact E | exact Hin | exact Hs].
      intros s' Hs'. by apply G1, Hidx.
Qed.

(** With full-update mode off, a memo that is indexed and outside the
    window is skipped: nothing is written and the state is unchanged. *)
Lemma for_each_skips (slug_map : gmap string value) memo_list (w : world Store.store) :
  Forall (fun memo => exists d s,
            memo = VDict d /\ dict_lookup d "slug" = Some (VStr s)
            /\ is_Some (slug_map !! s)
            /\ is_within_n_days (dict_get d "updated_at" (VStr ""))
                 (_parse_int_env "UPDATE_INTERVAL_DAY" 7) = Ok false) memo_list ->
  for_each (sync_memo false (_parse_int_env "UPDATE_INTERVAL_DAY" 7) slug_map) memo_list w
  = (Ok tt, w).
Proof.
  induction 1 as [|memo memo_list (d & s & -> & Hs & [page Hp] & Hw) _ IH]; [done|].
  simpl. unfold bind at 1.
  assert (sync_memo false (_parse_int_env "UPDATE_INTERVAL_DAY" 7) slug_map (VDict d) w
          = (Ok tt, w)) as ->; [|exact IH].
  unfold sync_memo, bind at 1 2, lift; simpl.
  rewrite (dict_get_lookup _ _ _ _ Hs). simpl. rewrite Hp.
  unfold bind, lift. by rewrite Hw.
Qed.

(** C2, as the script has it: when a run has completed and is followed by a
    run on the same memos with full-update mode off, the second run issues
    no write and leaves the destination as it is, provided every memo
    carries a non-empty text slug and is outside the freshness window. *)
Theorem second_run_writes_nothing fuel memo_list (w0 w1 : world Store.store) :
  _parse_bool_env "FULL_UPDATE" false = false ->
  fetch_all fuel = Some (Ok memo_list) ->
  Forall identified_and_stale memo_list ->
  sync_to_notion fuel w0 = Some (Ok tt, w1) ->
  sync_to_notion fuel (Reference.next_run w1) = Some (Ok tt, Reference.next_run w1).
Proof.
  intros Hoff Hf Hm E. unfold sync_to_notion in *. rewrite Hf in *.
  injection E as E. f_equal.
  unfold reconcile, bind at 1, read_dest in E. simpl in E.
  unfold reconcile, bind at 1, read_dest. simpl.
  rewrite Hoff. apply for_each_skips.
  apply Forall_forall. intros memo Hin.
  rewrite Forall_forall in Hm.
  destruct (Hm memo Hin) as (d & s & -> & Hs & Hne & Hw).
  exists d, s. repeat split; try done.
  apply build_slug_map_is_Some. split; [done|].
  eapply for_each_adds; [| exact E | exact Hin | exact Hs].
  intros s' Hs'. apply build_slug_map_is_Some in Hs' as [_ Hr]. exact Hr.
Qed.

End TwoRuns.

(** C2 as stated fails.  A memo updated the day before both runs is found
    in the index by the second run and is within the window: the second
    run updates its record, clears it and uploads its body again.  A memo
    without a slug, two months old, is created again by the second run. *)
Lemma second_run_rewrites_fresh_memo :
  @_parse_bool_env (Reference.runtime []) "FULL_UPDATE" false = false
  /\ Reference.second_run_writes Reference.one_memo Reference.next_day
     = Some [ PagesUpdate (VStr "page-0")
                [ ("标题", get_title "hi");
                  ("更新时间", get_date (VStr "2024-01-01 00:00:00"));
                  ("链接数量", get_number (VInt 0));
                  ("标签", get_multi_select (VList []));
                  ("是否置顶", get_select (VStr "否")) ];
              ClearPageContent (VStr "page-0");
              UploadContent "hi" (VStr "page-0") ]
  /\ Reference.second_run_writes Reference.slugless_memo Reference.two_months_later
     = Some [ PagesCreate [("database_id", VStr "database"); ("type", VStr "database_id")]
                (get_icon "https://www.notion.so/icons/target_red.svg")
                (get_icon "cover-1")
                [ ("标题", get_title "hi");
                  ("标签", get_multi_select (VList []));
                  ("是否置顶", get_select (VStr "否"));
                  ("slug", get_rich_text (VStr ""));
                  ("创建时间", get_date (VStr ""));
                  ("更新时间", get_date (VStr "2024-01-01 00:00:00"));
                  ("来源", get_select (VStr ""));
                  ("链接数量", get_number (VInt 0)) ];
              UploadContent "hi" (VStr "page-1") ].
Proof. repeat split; vm_compute; reflexivity. Qed.

(** ** The theorems at concrete runs *)

Lemma one_create_per_identifier_witness :
  is_Some (Reference.index Reference.synced_world !! "a")
  /\ exists r w',
       Reference.sync Reference.two_memos Reference.next_day [] 2 Reference.synced_world
       = Some (r, w')
       /\ (forall s, is_Some (Reference.index Reference.synced_world !! s) ->
                     VStr s ∉ created_slugs (calls w'))
       /\ created_slugs (calls w')
          `sublist_of` (identifier <$> [Reference.memo_a; Reference.memo_b])
       /\ (NoDup (identifier <$> [Reference.memo_a; Reference.memo_b]) ->
           NoDup (created_slugs (calls w'))).
Proof.
  split; [exists (VStr "page-0"); vm_compute; reflexivity|].
  apply (@one_create_per_identifier Reference.converters
           (Reference.utils Reference.next_day) (Reference.runtime [])
           Reference.two_memos Store.store Store.page Store.notion
           2 [Reference.memo_a; Reference.memo_b]
           (dest Reference.synced_world) Reference.synced_world).
  - vm_compute. reflexivity.
  - reflexivity.
  - reflexivity.
Defined.

Lemma second_run_writes_nothing_witness :
  Reference.sync Reference.one_memo Reference.two_months_later [] 2 Reference.empty_world
  = Some (Ok tt, Reference.first_run_world)
  /\ Reference.sync Reference.one_memo Reference.two_months_later [] 2
       (Reference.next_run Reference.first_run_world)
     = Some (Ok tt, Reference.next_run Reference.first_run_world).
Proof.
  assert (E : Reference.sync Reference.one_memo Reference.two_months_later [] 2
                Reference.empty_world
              = Some (Ok tt, Reference.first_run_world))
    by (vm_compute; reflexivity).
  split; [exact E|].
  apply (@second_run_writes_nothing Reference.converters
           (Reference.utils Reference.two_months_later) (Reference.runtime [])
           Reference.one_memo 2 [Reference.memo_a]
           Reference.empty_world Reference.first_run_world).
  - reflexivity.
  - vm_compute. reflexivity.
  - constructor; [|constructor].
    eexists _, "a". split; [reflexivity|]. split; [reflexivity|].
    split; [discriminate|]. vm_compute. reflexivity.
  - exact E.
Defined.


Lemma full_update_never_skips_witness :
  @_parse_bool_env (Reference.runtime [("FULL_UPDATE", "true")]) "FULL_UPDATE" false = true
  /\ calls Reference.synced_world
     ++ [ PagesUpdate (VStr "page-0")
            [ ("标题", get_title "hi");
              ("更新时间", get_date (VStr "2024-01-01 00:00:00"));
              ("链接数量", get_number (VInt 0));
              ("标签", get_multi_select (VList []));
              ("是否置顶", get_select (VStr "否")) ] ]
     `prefix_of`
     calls (snd (@reconcile Reference.converters
                   (Reference.utils Reference.two_months_later)
                   (Reference.runtime [("FULL_UPDATE", "true")]) _ _ Store.notion
                   ([] ++ Reference.memo_a :: [Reference.memo_b])
                   Reference.synced_world)).
Proof.
  assert (Hon : @_parse_bool_env (Reference.runtime [("FULL_UPDATE", "true")])
                  "FULL_UPDATE" false = true)
    by (vm_compute; reflexivity).
  split; [exact Hon|].
  refine (@full_update_never_skips Reference.converters
            (Reference.utils Reference.two_months_later)
            (Reference.runtime [("FULL_UPDATE", "true")]) _ _ Store.notion
            []
            [ ("slug", VStr "a"); ("content", VStr "<p>hi</p>");
              ("updated_at", VStr "2024-01-01 00:00:00") ]
            [Reference.memo_b] "a" (VStr "page-0")
            (dest Reference.synced_world)
            Reference.synced_world Reference.synced_world
            (fst (@reconcile Reference.converters
                    (Reference.utils Reference.two_months_later)
                    (Reference.runtime [("FULL_UPDATE", "true")]) _ _ Store.notion
                    ([] ++ Reference.memo_a :: [Reference.memo_b])
                    Reference.synced_world))
            _ Hon _ _ _ _ _).
  - reflexivity.
  - reflexivity.
  - reflexivity.
  - vm_compute. reflexivity.
  - vm_compute. reflexivity.
Defined.


Lemma malformed_timestamp_is_fatal_witness :
  @strptime (Reference.runtime []) "2024/01/01" = None
  /\ Reference.sync Reference.malformed_page Reference.next_day [] 1 Reference.empty_world
     = Some (Raise ValueError, Reference.empty_world).
Proof.
  split; [reflexivity|].
  apply (@malformed_timestamp_is_fatal Reference.converters
           (Reference.utils Reference.next_day) (Reference.runtime [])
           Reference.malformed_page _ _ Store.notion
           [] "0" [Reference.memo_a; Reference.memo_malformed]
           Reference.memo_malformed (VStr "2024/01/01") Reference.empty_world 1).
  - constructor.
  - reflexivity.
  - reflexivity.
  - reflexivity.
  - intros s [= <-]. reflexivity.
  - simpl. lia.
Defined.

(** ** The scenarios of the specification, run *)

Example epoch_of_new_year :
  Reference.epoch <$> Reference.parse "2024-01-01 00:00:00" = Some 1704067200%Z.
Proof. reflexivity. Qed.

Example full_update_flag :
  @_parse_bool_env (Reference.runtime [("FULL_UPDATE", " Yes ")]) "FULL_UPDATE" false = true
  /\ @_parse_bool_env (Reference.runtime [("FULL_UPDATE", "0")]) "FULL_UPDATE" false = false.
Proof. split; vm_compute; reflexivity. Qed.

Example interval_defaults_to_seven :
  @_parse_int_env (Reference.runtime []) "UPDATE_INTERVAL_DAY" 7 = 7%Z
  /\ @_parse_int_env (Reference.runtime [("UPDATE_INTERVAL_DAY", "two")]) "UPDATE_INTERVAL_DAY" 7
     = 7%Z
  /\ @_parse_int_env (Reference.runtime [("UPDATE_INTERVAL_DAY", "30")]) "UPDATE_INTERVAL_DAY" 7
     = 30%Z.
Proof. repeat split; vm_compute; reflexivity. Qed.

Example image_only_memo :
  @_safe_md_and_text Reference.converters Reference.memo_b
  = Ok ("https://img/1.png", "https://img/1.png").
Proof. reflexivity. Qed.

(** One memo and an empty destination: one create, titled from ["hi"],
    with body ["hi"]. *)
Example first_run_creates_once :
  Reference.sync Reference.one_memo Reference.next_day [] 2 Reference.empty_world
  = Some (Ok tt, Reference.first_run_world).
Proof. vm_compute. reflexivity. Qed.

(** The memo is in the index and far outside the window: no write. *)
Example stale_memo_is_skipped :
  Reference.sync Reference.one_memo Reference.two_months_later [] 2 Reference.synced_world
  = Some (Ok tt, Reference.synced_world).
Proof. vm_compute. reflexivity. Qed.

(** One request is not enough to see the empty page that ends the loop. *)
Example one_request_is_not_enough :
  Reference.sync Reference.one_memo Reference.next_day [] 1 Reference.empty_world = None.
Proof. vm_compute. reflexivity. Qed.

(** * Further properties of the script *)

(** ** The normalizer on a memo with content *)

Section Content.
Context `{Converters}.

(** X1: when the content of a memo is not empty, its attachments are not
    looked at: the normalizer answers with what the two converters make of
    the content, [markdownify] first, and two memos with the same content
    get the same answer whatever their other fields. *)
Theorem content_overrides_files d d' :
  truthy (dict_get d "content" VNone) = true ->
  dict_get d' "content" VNone = dict_get d "content" VNone ->
  _safe_md_and_text (VDict d)
  = (try content_md := markdownify (dict_get d "content" VNone) in
     try content_text := html2text (dict_get d "content" VNone) in
     Ok (content_md, content_text))
  /\ _safe_md_and_text (VDict d') = _safe_md_and_text (VDict d).
Proof.
  intros Hc Hd. split.
  - by apply safe_md_and_text_converted.
  - rewrite !safe_md_and_text_converted; [by rewrite Hd | done | by rewrite Hd].
Qed.

Lemma join_nonempty sep s ss : s <> "" -> join sep (s :: ss) <> "".
Proof.
  intros Hs. destruct s as [|c s]; [done|].
  destruct ss; simpl; [done|]. discriminate.
Qed.

Lemma image_urls_nonempty fs : Forall (fun u => u <> "") (image_urls fs).
Proof.
  unfold image_urls. apply Forall_forall. intros u Hu.
  apply list_elem_of_omap in Hu as (f & _ & Hf).
  destruct f as [| | | | |fd]; try discriminate. simpl in Hf.
  destruct (dict_lookup fd "type") as [[| | |t| |]|]; try discriminate.
  destruct (dict_lookup fd "url") as [[| | |u'| |]|]; try discriminate.
  case_decide as Hd; [|discriminate]. injection Hf as <-. tauto.
Qed.

(** X2: on a memo without content, the markdown body and the excerpt are
    empty exactly when no attachment is an image with a non-empty url: a
    usable image never yields an empty page. *)
Theorem empty_body_iff_no_image d :
  content_missing d -> files_listed d -> Forall url_is_text (memo_files d) ->
  _safe_md_and_text (VDict d) = Ok ("", "") <-> image_urls (memo_files d) = [].
Proof.
  intros Hc Hl Hf. rewrite safe_md_and_text_fallback by done. split.
  - intros E. destruct (image_urls (memo_files d)) as [|u us] eqn:Eu; [done|].
    exfalso. pose proof (image_urls_nonempty (memo_files d)) as Hn.
    rewrite Eu in Hn. apply Forall_cons in Hn as [Hu _].
    injection E as E _. by apply (join_nonempty newline u us).
  - by intros ->.
Qed.

End Content.

Lemma content_overrides_files_witness :
  @_safe_md_and_text Reference.converters (VDict Cases.memo_text_and_image)
  = Ok ("hi", "hi")
  /\ @_safe_md_and_text Reference.converters
       (VDict [("content", VStr "<p>hi</p>")])
     = @_safe_md_and_text Reference.converters (VDict Cases.memo_text_and_image).
Proof.
  refine (@content_overrides_files Reference.converters
            Cases.memo_text_and_image [("content", VStr "<p>hi</p>")] _ _);
    reflexivity.
Defined.

Lemma empty_body_iff_no_image_witness :
  content_missing [("files", VList [VInt 3])]
  /\ (@_safe_md_and_text Reference.converters (VDict [("files", VList [VInt 3])])
      = Ok ("", "")
      <-> image_urls (memo_files [("files", VList [VInt 3])]) = []).
Proof.
  assert (Hc : content_missing [("files", VList [VInt 3])]) by (left; reflexivity).
  split; [exact Hc|].
  refine (@empty_body_iff_no_image Reference.converters _ Hc _ _).
  - right; right; eexists; reflexivity.
  - repeat constructor. by apply url_is_text_not_dict.
Defined.

(** ** The properties written *)

Section Properties.
Context `{Utils} {D R : Type} `{Notion D R}.

(** X3: the properties an update writes are properties a create writes,
    with the same values for the same memo; the slug, the created
    timestamp and the source are written by a create only. *)
Theorem update_properties_agree d text :
  (forall name v,
      prop_lookup (update_properties d text) name = Some v ->
      prop_lookup (insert_properties d text) name = Some v)
  /\ map fst (insert_properties d text)
     = ["标题"; "标签"; "是否置顶"; "slug"; "创建时间"; "更新时间"; "来源"; "链接数量"]
  /\ Forall (fun name => prop_lookup (update_properties d text) name = None)
       ["slug"; "创建时间"; "来源"].
Proof.
  split; [|split; [reflexivity | repeat constructor]].
  intros name v. unfold update_properties, insert_properties.
  cbn [prop_lookup].
  repeat match goal with
         | |- context [String.eqb ?k name] =>
             let E := fresh "E" in
             destruct (String.eqb k name) eqn:E;
             [apply String.eqb_eq in E; subst name; intros [= <-]; reflexivity|]
         end.
  intros ?. discriminate.
Qed.

End Properties.

(** ** What a create issues *)

Section Insert.
Context `{Converters} `{Utils} `{Runtime} {D R : Type} `{Notion D R}.

(** X4: for every memo whose content normalizes, [insert_memo] draws one
    cover and issues the create in the synced collection, with the fixed
    icon, the cover drawn and the eight properties of the memo; when the
    destination answers it with a page, the normalized markdown body is
    uploaded to that page (its ["id"]).  The upload is issued exactly when
    the create succeeded and returned an ["id"], and the outcome is that
    of the last call issued. *)
Theorem insert_memo_issues d md text (w : world D) :
  _safe_md_and_text (VDict d) = Ok (md, text) ->
  insert_memo (VDict d) w
  = let properties := insert_properties d text in
    let cover := get_icon (random_choice_cover (draws w)) in
    let created :=
      calls w ++ [PagesCreate insert_parent insert_icon cover properties] in
    match pages_create insert_parent insert_icon cover properties (dest w) with
    | (Raise e, d1) => (Raise e, World d1 created (S (draws w)))
    | (Ok page, d1) =>
        match record_id page with
        | None => (Raise KeyError, World d1 created (S (draws w)))
        | Some i =>
            let (r, d2) := uploadSingleFileContent md i d1 in
            (r, World d2 (created ++ [UploadContent md i]) (S (draws w)))
        end
    end.
Proof.
  intros E. unfold insert_memo, bind at 1 2, lift. rewrite E. cbn [as_dict].
  unfold client_pages_create, uploader_uploadSingleFileContent,
    record_subscript_id, random_choice, bind, issue, on_dest, lift.
  cbn [dest calls draws].
  destruct (pages_create insert_parent insert_icon
              (get_icon (random_choice_cover (draws w)))
              (insert_properties d text) (dest w))
    as [[page|e] d1]; cbn; [|reflexivity].
  destruct (record_id page) as [i|]; cbn; [|reflexivity].
  destruct (uploadSingleFileContent md i d1) as [r d2]. reflexivity.
Qed.

(** X5: when the normalizer raises on a memo, neither [insert_memo] nor
    [update_memo] reaches the destination: the exception is the outcome, no
    write is issued and no cover is drawn. *)
Theorem failed_conversion_writes_nothing memo page_id e (w : world D) :
  _safe_md_and_text memo = Raise e ->
  insert_memo memo w = (Raise e, w) /\ update_memo memo page_id w = (Raise e, w).
Proof.
  intros E. unfold insert_memo, update_memo, bind, lift. by rewrite E.
Qed.

End Insert.

Lemma insert_memo_issues_witness :
  @insert_memo Reference.converters (Reference.utils Reference.next_day)
    (Reference.runtime []) _ _ Store.notion Reference.memo_a Reference.empty_world
  = (Ok tt, Reference.first_run_world).
Proof.
  refine (eq_trans
            (@insert_memo_issues Reference.converters
               (Reference.utils Reference.next_day) (Reference.runtime [])
               _ _ Store.notion
               [ ("slug", VStr "a"); ("content", VStr "<p>hi</p>");
                 ("updated_at", VStr "2024-01-01 00:00:00") ]
               "hi" "hi" Reference.empty_world _) _).
  - reflexivity.
  - vm_compute. reflexivity.
Defined.

Lemma failed_conversion_writes_nothing_witness :
  @_safe_md_and_text Reference.converters Cases.memo_numeric_url = Raise TypeError
  /\ @insert_memo Reference.converters (Reference.utils Reference.next_day)
       (Reference.runtime []) _ _ Store.notion
       Cases.memo_numeric_url Reference.synced_world
     = (Raise TypeError, Reference.synced_world)
  /\ @update_memo Reference.converters (Reference.utils Reference.next_day)
       _ _ Store.notion Cases.memo_numeric_url (VStr "page-0") Reference.synced_world
     = (Raise TypeError, Reference.synced_world).
Proof.
  assert (E : @_safe_md_and_text Reference.converters Cases.memo_numeric_url
              = Raise TypeError) by reflexivity.
  split; [exact E|].
  exact (@failed_conversion_writes_nothing Reference.converters
           (Reference.utils Reference.next_day) (Reference.runtime [])
           _ _ Store.notion Cases.memo_numeric_url (VStr "page-0") TypeError
           Reference.synced_world E).
Defined.

(** ** Every write of a run is accounted for *)

Section Issues.
Context `{Runtime} {D : Type}.

Lemma issues_ret {A} (P : call -> Prop) (a : A) : issues P (ret (D := D) a).
Proof. intros w r w' [= _ <-]. exists []. by rewrite app_nil_r. Qed.

Lemma issues_lift {A} (P : call -> Prop) (x : result A) : issues P (lift (D := D) x).
Proof. intros w r w' [= _ <-]. exists []. by rewrite app_nil_r. Qed.

Lemma issues_issue (P : call -> Prop) c : P c -> issues P (issue (D := D) c).
Proof. intros Hc w r w' [= _ <-]. exists [c]. split; [done|]. by constructor. Qed.

Lemma issues_on_dest {A} (P : call -> Prop) (f : D -> result A * D) :
  issues P (on_dest f).
Proof.
  intros w r w' E. unfold on_dest in E. destruct (f (dest w)).
  injection E as _ <-. exists []. by rewrite app_nil_r.
Qed.

Lemma issues_random_choice (P : call -> Prop) : issues P (random_choice (D := D)).
Proof. intros w r w' [= _ <-]. exists []. by rewrite app_nil_r. Qed.

Lemma issues_bind {A B} (P : call -> Prop) (m : M D A) (k : A -> M D B) :
  issues P m -> (forall a, issues P (k a)) -> issues P (bind m k).
Proof.
  intros Hm Hk w r w' E. unfold bind in E.
  destruct (m w) as [[a|e] w1] eqn:Em.
  - destruct (Hm _ _ _ Em) as (i1 & C1 & F1).
    destruct (Hk a _ _ _ E) as (i2 & C2 & F2).
    exists (i1 ++ i2). rewrite C2, C1, <- app_assoc. split; [done|].
    by apply Forall_app.
  - injection E as _ <-. by eapply Hm.
Qed.

(** A step that follows a pure computation may rely on its result. *)
Lemma issues_bind_lift {A B} (P : call -> Prop) (x : result A) (k : A -> M D B) :
  (forall a, x = Ok a -> issues P (k a)) -> issues P (bind (lift x) k).
Proof.
  intros Hk w r w' E. unfold bind, lift in E. destruct x as [a|e].
  - by eapply Hk.
  - injection E as _ <-. exists []. by rewrite app_nil_r.
Qed.

End Issues.

Section Accounted.
Context `{Converters} `{Utils} `{Runtime} `{Flomo} {D R : Type} `{Notion D R}.

Lemma update_memo_justified (slug_map : gmap string value) memo_list d s page :
  VDict d ∈ memo_list ->
  dict_lookup d "slug" = Some (VStr s) ->
  slug_map !! s = Some page ->
  issues (justified slug_map memo_list) (update_memo (D := D) (VDict d) page).
Proof.
  intros Hin Hs Hp. unfold update_memo.
  apply issues_bind_lift. intros [md text] _.
  apply issues_bind_lift. intros d' [= <-].
  apply issues_bind.
  { apply issues_bind; [|intros _; apply issues_on_dest].
    apply issues_issue. simpl. by exists d, s, text. }
  intros page'. apply issues_bind; [apply issues_lift|]. intros i.
  apply issues_bind.
  { apply issues_bind; [by apply issues_issue | intros _; apply issues_on_dest]. }
  intros _. apply issues_bind; [apply issues_lift|]. intros i'.
  apply issues_bind; [by apply issues_issue | intros _; apply issues_on_dest].
Qed.

Lemma insert_memo_justified (slug_map : gmap string value) memo_list d :
  VDict d ∈ memo_list ->
  slug_lookup (dict_get d "slug" VNone) slug_map = Ok None ->
  issues (justified slug_map memo_list) (insert_memo (D := D) (VDict d)).
Proof.
  intros Hin Hs. unfold insert_memo.
  apply issues_bind_lift. intros [md text] _.
  apply issues_bind_lift. intros d' [= <-].
  apply issues_bind; [apply issues_random_choice|]. intros cover.
  apply issues_bind.
  { apply issues_bind; [|intros _; apply issues_on_dest].
    apply issues_issue. simpl. split; [done|]. split; [done|]. by exists d, text. }
  intros page. apply issues_bind; [apply issues_lift|]. intros i.
  apply issues_bind; [by apply issues_issue | intros _; apply issues_on_dest].
Qed.

Lemma slug_lookup_found slug (slug_map : gmap string value) page :
  slug_lookup slug slug_map = Ok (Some page) ->
  exists s, slug = VStr s /\ slug_map !! s = Some page.
Proof. destruct slug; simpl; try discriminate. intros [= E]. eauto. Qed.

Lemma dict_get_text d k s : dict_get d k VNone = VStr s -> dict_lookup d k = Some (VStr s).
Proof. unfold dict_get. destruct (dict_lookup d k); [congruence | discriminate]. Qed.

Lemma sync_memo_justified full_update interval_day (slug_map : gmap string value)
    memo_list memo :
  memo ∈ memo_list ->
  issues (justified slug_map memo_list)
    (sync_memo (D := D) full_update interval_day slug_map memo).
Proof.
  intros Hin. unfold sync_memo.
  apply issues_bind_lift. intros d Ed.
  destruct memo as [| | | | |d0]; try discriminate. injection Ed as ->.
  apply issues_bind_lift. intros [page|] Ef.
  - apply slug_lookup_found in Ef as (s & Hs%dict_get_text & Hp).
    apply issues_bind.
    { destruct (negb full_update); [|apply issues_ret].
      apply issues_bind_lift. intros within _. apply issues_ret. }
    intros [|]; [apply issues_ret|]. by eapply update_memo_justified.
  - by apply insert_memo_justified.
Qed.

(** X6: every create and every property update a run issues is accounted
    for by a fetched memo: a create carries the properties of a fetched
    memo whose slug the index does not have, in the synced collection and
    with the fixed icon; a property update carries the properties of a
    fetched memo and goes to the handle the index gives for its slug.  No
    other record is created or rewritten. *)
Theorem every_write_is_justified memo_list records (w : world D) r w' :
  query_all helper_page_id (dest w) = Ok records ->
  reconcile memo_list w = (r, w') ->
  exists issued,
    calls w' = calls w ++ issued
    /\ Forall (justified (build_slug_map records) memo_list) issued.
Proof.
  intros Hq E. unfold reconcile, bind at 1, read_dest in E. rewrite Hq in E.
  revert E. generalize (_parse_bool_env "FULL_UPDATE" false)
    (_parse_int_env "UPDATE_INTERVAL_DAY" 7) (build_slug_map records).
  intros full_update interval_day slug_map.
  assert (Hall : forall l, (forall memo, memo ∈ l -> memo ∈ memo_list) ->
            issues (justified slug_map memo_list)
              (for_each (sync_memo (D := D) full_update interval_day slug_map) l)).
  { induction l as [|memo l IH]; intros Hl; simpl; [apply issues_ret|].
    apply issues_bind.
    - apply sync_memo_justified, Hl. left.
    - intros _. apply IH. intros memo' Hm. apply Hl. by right. }
  intros E. by eapply (Hall memo_list).
Qed.

(** With full-update off, the loop body on an indexed memo follows the
    freshness test. *)
Lemma sync_memo_window interval_day (slug_map : gmap string value)
    d s page (w : world D) :
  dict_lookup d "slug" = Some (VStr s) ->
  slug_map !! s = Some page ->
  sync_memo false interval_day slug_map (VDict d) w
  = match is_within_n_days (dict_get d "updated_at" (VStr "")) interval_day with
    | Ok true => update_memo (VDict d) page w
    | Ok false => (Ok tt, w)
    | Raise e => (Raise e, w)
    end.
Proof.
  intros Hs Hp. unfold sync_memo, bind at 1 2, lift; simpl.
  rewrite (dict_get_lookup _ _ _ _ Hs). simpl. rewrite Hp.
  unfold bind, lift, ret.
  by destruct (is_within_n_days _ _) as [[|]|].
Qed.

(** X7: with [FULL_UPDATE] and [UPDATE_INTERVAL_DAY] unset, the mode is
    off and the window is 7 days: a run whose fetched memos are all in the
    index and not within 7 days issues no write, draws no cover and leaves
    the destination as it is. *)
Theorem unset_environment_skips_stale memo_list records (w : world D) :
  getenv "FULL_UPDATE" = None ->
  getenv "UPDATE_INTERVAL_DAY" = None ->
  query_all helper_page_id (dest w) = Ok records ->
  Forall (fun memo => exists d s,
            memo = VDict d
            /\ dict_lookup d "slug" = Some (VStr s)
            /\ is_Some (build_slug_map records !! s)
            /\ is_within_n_days (dict_get d "updated_at" (VStr "")) 7 = Ok false)
    memo_list ->
  reconcile memo_list w = (Ok tt, w).
Proof.
  intros Hf Hi Hq Hall. unfold reconcile, bind at 1, read_dest. rewrite Hq.
  unfold _parse_bool_env, _parse_int_env. rewrite Hf, Hi.
  induction Hall as [|memo memo_list (d & s & -> & Hs & [page Hp] & Hw) _ IH];
    [done|].
  simpl. unfold bind at 1.
  by rewrite (sync_memo_window _ _ _ _ _ _ Hs Hp), Hw.
Qed.


(** X9: the loop has no handler: when the loop body raises on a memo, the
    run ends with that exception in the state the failing memo left, and
    no memo after it is processed. *)
Theorem run_stops_at_first_failure l1 memo l2 records e (w w1 w2 : world D) :
  query_all helper_page_id (dest w) = Ok records ->
  reconcile l1 w = (Ok tt, w1) ->
  sync_memo (_parse_bool_env "FULL_UPDATE" false)
    (_parse_int_env "UPDATE_INTERVAL_DAY" 7) (build_slug_map records) memo w1
  = (Raise e, w2) ->
  reconcile (l1 ++ memo :: l2) w = (Raise e, w2).
Proof.
  intros Hq E1 Em. unfold reconcile, bind at 1, read_dest in E1.
  unfold reconcile, bind at 1, read_dest.
  rewrite Hq in *. rewrite for_each_app. unfold bind at 1. rewrite E1.
  simpl. unfold bind at 1. by rewrite Em.
Qed.

(** X10: when the first page is empty, the run still queries the
    destination, so a failing query is its outcome, and it issues no
    write. *)
Theorem empty_source_writes_nothing fuel (w : world D) :
  get_memo_list (getenv "FLOMO_TOKEN") "0" = Ok [] ->
  0 < fuel ->
  sync_to_notion fuel w
  = Some (match query_all helper_page_id (dest w) with
          | Ok _ => Ok tt
          | Raise e => Raise e
          end, w).
Proof.
  intros He Hf. destruct fuel as [|fuel]; [lia|].
  unfold sync_to_notion, fetch_all. simpl. rewrite He.
  unfold reconcile, bind, read_dest.
  by destruct (query_all helper_page_id (dest w)).
Qed.

End Accounted.

(** ** Pagination that does not end well *)

Section Stuck.
Context `{Converters} `{Utils} `{Runtime} `{Flomo} {D R : Type} `{Notion D R}.

Lemma fetch_loop_stuck authorization cursor page memo :
  get_memo_list authorization cursor = Ok page ->
  last page = Some memo ->
  epoch_cursor memo = Some cursor ->
  forall fuel memo_list, fetch_loop fuel authorization cursor memo_list = None.
Proof.
  intros Hg Hl He. induction fuel as [|fuel IH]; intros memo_list; [done|].
  erewrite fetch_loop_step;
    [apply IH | done | done | by apply (latest_updated_at_epoch _ _ Hl)].
Qed.

Lemma fetch_loop_never authorization cursor pages cursor' :
  page_chain authorization cursor pages cursor' ->
  (forall fuel memo_list, fetch_loop fuel authorization cursor' memo_list = None) ->
  forall fuel memo_list, fetch_loop fuel authorization cursor memo_list = None.
Proof.
  induction 1 as [cursor | cursor page memo cursor' pages cursor'' Hg Hl He _ IH];
    intros Hend fuel memo_list; [apply Hend|].
  destruct fuel as [|fuel]; [done|].
  erewrite fetch_loop_step;
    [by apply IH | done | done | by apply (latest_updated_at_epoch _ _ Hl)].
Qed.

(** X11: the loop has no guard against a cursor that does not move: when
    the cursors reach a page whose last memo converts to the cursor the
    page was requested with, the same page is requested again and again
    and the run never returns, whatever the number of requests allowed. *)
Theorem stuck_cursor_never_returns pages cursor page memo (w : world D) fuel :
  page_chain (getenv "FLOMO_TOKEN") "0" pages cursor ->
  get_memo_list (getenv "FLOMO_TOKEN") cursor = Ok page ->
  last page = Some memo ->
  epoch_cursor memo = Some cursor ->
  sync_to_notion fuel w = None.
Proof.
  intros Hp Hg Hl He. unfold sync_to_notion, fetch_all.
  rewrite (fetch_loop_never _ _ _ _ Hp); [done|].
  by eapply fetch_loop_stuck.
Qed.

(** X12: whatever is raised in step 1, by a page request or by the advance
    of the cursor (a last memo without [updated_at], or that is not a
    dictionary, a timestamp out of range), is the outcome of the run, and
    the run has not reached the destination: nothing is written. *)
Theorem pagination_failure_is_fatal pages cursor e (w : world D) fuel :
  page_chain (getenv "FLOMO_TOKEN") "0" pages cursor ->
  pagination_failure (getenv "FLOMO_TOKEN") cursor e ->
  length pages < fuel ->
  sync_to_notion fuel w = Some (Raise e, w).
Proof.
  intros Hp Hfail Hf. unfold sync_to_notion, fetch_all.
  destruct Hfail as [Hg | (page & memo & Hg & Hl & He)].
  - rewrite (fetch_loop_chain _ _ _ _ Hp) by lia.
    destruct (fuel - length pages) as [|n] eqn:En; [lia|].
    simpl. by rewrite Hg.
  - by erewrite fetch_loop_raises.
Qed.

End Stuck.

Lemma stuck_cursor_never_returns_witness :
  @epoch_cursor (Reference.runtime []) Cases.memo_at_origin = Some "0"
  /\ Reference.sync Cases.stuck_source Reference.next_day [] 1000 Reference.empty_world
     = None.
Proof.
  assert (He : @epoch_cursor (Reference.runtime []) Cases.memo_at_origin = Some "0")
    by (vm_compute; reflexivity).
  split; [exact He|].
  refine (@stuck_cursor_never_returns Reference.converters
            (Reference.utils Reference.next_day) (Reference.runtime [])
            Cases.stuck_source _ _ Store.notion
            [] "0" [Cases.memo_at_origin] Cases.memo_at_origin
            Reference.empty_world 1000 _ _ _ He).
  - constructor.
  - reflexivity.
  - reflexivity.
Defined.

Lemma pagination_failure_is_fatal_witness :
  Reference.sync Cases.failing_source Reference.next_day [] 1 Reference.synced_world
  = Some (Raise (CallFailed "get_memo_list"), Reference.synced_world).
Proof.
  refine (@pagination_failure_is_fatal Reference.converters
            (Reference.utils Reference.next_day) (Reference.runtime [])
            Cases.failing_source _ _ Store.notion
            [] "0" (CallFailed "get_memo_list") Reference.synced_world 1 _ _ _).
  - constructor.
  - left. reflexivity.
  - simpl. lia.
Defined.

(** ** The index and the order of the scan *)

Section Scan.
Context {D R : Type} `{Notion D R}.

Lemma indexed_slugs_cons (r : R) records :
  indexed_slugs (r :: records)
  = match get_rich_text_from_result r "slug" with
    | Some key => if negb (String.eqb key "") then key :: indexed_slugs records
                  else indexed_slugs records
    | None => indexed_slugs records
    end.
Proof.
  unfold indexed_slugs. csimpl.
  destruct (get_rich_text_from_result r "slug") as [key|]; [|done].
  csimpl. destruct (String.eqb key "") eqn:E; simpl.
  - apply String.eqb_eq in E. by rewrite filter_cons_False by tauto.
  - apply String.eqb_neq in E. by rewrite filter_cons_True.
Qed.

Lemma indexed_slugs_tail (r : R) records :
  NoDup (indexed_slugs (r :: records)) -> NoDup (indexed_slugs records).
Proof.
  rewrite indexed_slugs_cons.
  destruct (get_rich_text_from_result r "slug") as [key|]; [|done].
  destruct (negb (String.eqb key "")); [|done]. by intros [_ ?]%NoDup_cons.
Qed.

(** X13: when no two records carry the same non-empty identifier, the
    index does not depend on the order in which the destination returns
    its records. *)
Theorem build_slug_map_permutation (records records' : list R) :
  records ≡ₚ records' ->
  NoDup (indexed_slugs records) ->
  build_slug_map records = build_slug_map records'.
Proof.
  unfold build_slug_map. generalize (∅ : gmap string value).
  intros m Hperm. revert m.
  induction Hperm as [|x l l' Hp IH|x y l|l l' l'' Hp1 IH1 Hp2 IH2]; intros m Hnd.
  - done.
  - simpl. apply IH. by eapply indexed_slugs_tail.
  - simpl. f_equal.
    rewrite !indexed_slugs_cons in Hnd.
    destruct (get_rich_text_from_result x "slug") as [kx|]; [|done].
    destruct (get_rich_text_from_result y "slug") as [ky|]; [|done].
    destruct (negb (String.eqb kx "")); [|done].
    destruct (negb (String.eqb ky "")); [|done].
    apply NoDup_cons in Hnd as [Hne _].
    apply insert_insert_ne. intros ->. apply Hne. left.
  - rewrite IH1 by done. apply IH2.
    assert (Hs : indexed_slugs l ≡ₚ indexed_slugs l').
    { unfold indexed_slugs. by rewrite Hp1. }
    by rewrite <- Hs.
Qed.

End Scan.

Lemma build_slug_map_permutation_witness :
  Reference.index Cases.two_pages_world
  = @build_slug_map _ _ Store.notion
      (Cases.page_b :: dest Reference.synced_world).
Proof.
  refine (@build_slug_map_permutation _ _ Store.notion
            (dest Cases.two_pages_world)
            (Cases.page_b :: dest Reference.synced_world) _ _).
  - apply perm_swap.
  - vm_compute. apply NoDup_cons. split; [|apply NoDup_singleton].
    intros Hin%list_elem_of_singleton. discriminate.
Defined.

(** ** Across two runs, on the reference destination *)

Section NextRun.
Context `{Converters} `{Utils} `{Runtime} `{Flomo}.

(** X14: a run that follows a completed run on the same memos creates no
    record for a memo that carries a non-empty text slug, whatever its age,
    the mode and the outcome of the second run: the record of the first
    run is found in the index. *)
Theorem next_run_creates_no_duplicate fuel memo_list d s
    (w0 w1 : world Store.store) r w2 :
  fetch_all fuel = Some (Ok memo_list) ->
  sync_to_notion fuel w0 = Some (Ok tt, w1) ->
  sync_to_notion fuel (Reference.next_run w1) = Some (r, w2) ->
  VDict d ∈ memo_list ->
  dict_lookup d "slug" = Some (VStr s) ->
  s <> "" ->
  VStr s ∉ created_slugs (calls w2).
Proof.
  intros Hf E1 E2 Hin Hs Hne. unfold sync_to_notion in *. rewrite Hf in *.
  injection E1 as E1. injection E2 as E2.
  unfold reconcile, bind at 1, read_dest in E1. simpl in E1.
  unfold reconcile, bind at 1, read_dest in E2. simpl in E2.
  assert (Hidx : is_Some (build_slug_map (dest w1) !! s)).
  { apply build_slug_map_is_Some. split; [done|].
    eapply for_each_adds; [| exact E1 | exact Hin | exact Hs].
    intros s' Hs'. apply build_slug_map_is_Some in Hs' as [_ Hr]. exact Hr. }
  apply for_each_creates in E2 as (created & E2 & _ & Hnone);
    [|apply build_slug_map_empty_key].
  simpl in E2. rewrite E2. intros Hc. apply Hnone in Hc.
  destruct Hidx as [page Hp]. congruence.
Qed.

End NextRun.

Lemma next_run_creates_no_duplicate_witness :
  Reference.sync Reference.one_memo Reference.next_day [] 2 Reference.empty_world
  = Some (Ok tt, Reference.first_run_world)
  /\ VStr "a" ∉ created_slugs
       (calls (snd (default (Ok tt, Reference.empty_world)
                      (Reference.sync Reference.one_memo Reference.next_day [] 2
                         (Reference.next_run Reference.first_run_world))))).
Proof.
  assert (E : Reference.sync Reference.one_memo Reference.next_day [] 2
                Reference.empty_world
              = Some (Ok tt, Reference.first_run_world))
    by (vm_compute; reflexivity).
  split; [exact E|].
  refine (@next_run_creates_no_duplicate Reference.converters
            (Reference.utils Reference.next_day) (Reference.runtime [])
            Reference.one_memo 2 [Reference.memo_a] _ "a"
            Reference.empty_world Reference.first_run_world
            (fst (default (Ok tt, Reference.empty_world)
                    (Reference.sync Reference.one_memo Reference.next_day [] 2
                       (Reference.next_run Reference.first_run_world))))
            _ _ E _ _ _ _).
  - vm_compute. reflexivity.
  - vm_compute. reflexivity.
  - left.
  - reflexivity.
  - discriminate.
Defined.

(** ** The further properties at concrete runs *)

Lemma every_write_is_justified_witness :
  exists issued,
    calls (snd (@reconcile Reference.converters (Reference.utils Reference.next_day)
                  (Reference.runtime []) _ _ Store.notion
                  [Reference.memo_a; Reference.memo_b] Reference.synced_world))
    = calls Reference.synced_world ++ issued
    /\ Forall (@justified (Reference.utils Reference.next_day) _ _ Store.notion
                 (Reference.index Reference.synced_world)
                 [Reference.memo_a; Reference.memo_b]) issued.
Proof.
  refine (@every_write_is_justified Reference.converters
            (Reference.utils Reference.next_day) (Reference.runtime [])
            _ _ Store.notion [Reference.memo_a; Reference.memo_b]
            (dest Reference.synced_world) Reference.synced_world
            (fst (@reconcile Reference.converters (Reference.utils Reference.next_day)
                    (Reference.runtime []) _ _ Store.notion
                    [Reference.memo_a; Reference.memo_b] Reference.synced_world))
            _ _ _).
  - reflexivity.
  - vm_compute. reflexivity.
Defined.

Lemma unset_environment_skips_stale_witness :
  @reconcile Reference.converters (Reference.utils Reference.two_months_later)
    (Reference.runtime []) _ _ Store.notion
    [Reference.memo_a] Reference.synced_world
  = (Ok tt, Reference.synced_world).
Proof.
  refine (@unset_environment_skips_stale Reference.converters
            (Reference.utils Reference.two_months_later) (Reference.runtime [])
            _ _ Store.notion [Reference.memo_a]
            (dest Reference.synced_world) Reference.synced_world _ _ _ _).
  - reflexivity.
  - reflexivity.
  - reflexivity.
  - constructor; [|constructor].
    eexists _, "a". split; [reflexivity|]. split; [reflexivity|].
    split; [|vm_compute; reflexivity].
    exists (VStr "page-0"). vm_compute. reflexivity.
Defined.


Lemma run_stops_at_first_failure_witness :
  @reconcile Reference.converters (Reference.utils Reference.next_day)
    (Reference.runtime []) _ _ Store.notion
    ([Reference.memo_a] ++ Cases.memo_numeric_url :: [Reference.memo_b])
    Reference.empty_world
  = (Raise TypeError, Reference.first_run_world).
Proof.
  refine (@run_stops_at_first_failure Reference.converters
            (Reference.utils Reference.next_day) (Reference.runtime [])
            _ _ Store.notion [Reference.memo_a] Cases.memo_numeric_url
            [Reference.memo_b] [] TypeError
            Reference.empty_world Reference.first_run_world
            Reference.first_run_world _ _ _).
  - reflexivity.
  - vm_compute. reflexivity.
  - vm_compute. reflexivity.
Defined.

Lemma empty_source_writes_nothing_witness :
  Reference.sync Cases.empty_source Reference.next_day [] 1 Reference.synced_world
  = Some (Ok tt, Reference.synced_world).
Proof.
  refine (@empty_source_writes_nothing Reference.converters
            (Reference.utils Reference.next_day) (Reference.runtime [])
            Cases.empty_source _ _ Store.notion 1 Reference.synced_world _ _).
  - reflexivity.
  - lia.
Defined.

(** ** Slugs that cannot match the index *)

Section Unmatched.
Context `{Converters} `{Utils} `{Runtime} {D R : Type} `{Notion D R}.

(** X15: only a non-empty text slug can be found in the index.  A memo
    whose slug is [None], a number, a boolean or the empty string takes the
    create path on every run, as a memo without slug does; a memo whose
    slug is a list or a dictionary makes the lookup raise [TypeError]
    before anything is written. *)
Theorem unusable_slug full_update interval_day (records : list R) d (w : world D) :
  (forall s, dict_get d "slug" VNone = VStr s -> s = "") ->
  sync_memo full_update interval_day (build_slug_map records) (VDict d) w
  = match dict_get d "slug" VNone with
    | VList _ | VDict _ => (Raise TypeError, w)
    | _ => insert_memo (VDict d) w
    end.
Proof.
  intros Hs. unfold sync_memo, bind at 1 2, lift; simpl.
  destruct (dict_get d "slug" VNone) as [| | |s| |] eqn:E; simpl; try done.
  rewrite (Hs s eq_refl). by rewrite build_slug_map_empty_key.
Qed.

End Unmatched.

Lemma unusable_slug_witness :
  @sync_memo Reference.converters (Reference.utils Reference.two_months_later)
    (Reference.runtime []) _ _ Store.notion
    false 7 (Reference.index Reference.synced_world)
    (VDict [("slug", VStr ""); ("content", VStr "<p>hi</p>")]) Reference.synced_world
  = @insert_memo Reference.converters (Reference.utils Reference.two_months_later)
      (Reference.runtime []) _ _ Store.notion
      (VDict [("slug", VStr ""); ("content", VStr "<p>hi</p>")]) Reference.synced_world.
Proof.
  refine (@unusable_slug Reference.converters
            (Reference.utils Reference.two_months_later) (Reference.runtime [])
            _ _ Store.notion false 7%Z (dest Reference.synced_world)
            [("slug", VStr ""); ("content", VStr "<p>hi</p>")]
            Reference.synced_world _).
  intros s [= <-]. reflexivity.
Defined.
